(** * Templar deployment glue: process-manager configuration, restart tasks
      and the interactive container launcher

    The development embeds three artefacts of the repository:

    - [ecosystem.config.js], the PM2 configuration module (module [Ecosystem]);
    - the [templar_restart] Ansible tasks that restart PM2 processes by name
      (module [Restart]);
    - the interactive [docker_run] Bash script (module [DockerRun]).

    Text is [string]; byte streams are [list ascii]; JavaScript objects used
    as maps and process environments are [gmap string string]. *)

From Stdlib Require Import Ascii String.
From stdpp Require Import gmap strings list fin_maps pretty.

Open Scope string_scope.

(** ** Characters and text shared by the three artefacts *)

Definition newline : ascii := "010"%char.
Definition space : ascii := " "%char.
Definition dquote : ascii := "034"%char.

(** The one-character string holding a double quote. *)
Definition dq : string := String dquote "".

Definition in_range (lo hi c : ascii) : bool :=
  (nat_of_ascii lo <=? nat_of_ascii c)%nat && (nat_of_ascii c <=? nat_of_ascii hi)%nat.

(** Split a string at every space; consecutive spaces give empty pieces. *)
Fixpoint split_spaces (s : string) : list string :=
  match s with
  | "" => [""]
  | String c s' =>
      if Ascii.eqb c space then "" :: split_spaces s'
      else match split_spaces s' with
           | w :: ws => String c w :: ws
           | [] => [String c ""]
           end
  end.

Definition nonempty (s : string) : bool :=
  match s with "" => false | _ => true end.

(** The whitespace-separated words of a command line. *)
Definition words (s : string) : list string :=
  List.filter nonempty (split_spaces s).

(** ** The PM2 configuration module [ecosystem.config.js] *)

Module Ecosystem.

(** *** The Unix tools of the suffix pipeline

    [cat /dev/urandom | tr -dc 'a-z0-9' | fold -w 4 | head -n 1] *)

(** The set ['a-z0-9'] given to [tr]. *)
Definition tr_set (c : ascii) : bool :=
  in_range "a" "z" c || in_range "0" "9" c.

(** [tr -dc SET]: delete every byte outside SET. *)
Definition tr_dc (set : ascii -> bool) (input : list ascii) : list ascii :=
  List.filter set input.

(** [fold -w width]: a newline is put in front of the byte that would make
    the current line wider than [width]; a newline of the input starts a new
    line.  Every other byte counts one column (after [tr] only letters and
    digits arrive here). *)
Fixpoint fold_go (width col : nat) (input : list ascii) : list ascii :=
  match input with
  | [] => []
  | c :: rest =>
      if Ascii.eqb c newline then c :: fold_go width 0 rest
      else if (width <? col + 1)%nat then newline :: c :: fold_go width 1 rest
      else c :: fold_go width (col + 1) rest
  end.

Definition fold_w (width : nat) (input : list ascii) : list ascii :=
  fold_go width 0 input.

(** [head -n n]: the first [n] lines, each with its newline when it has one. *)
Fixpoint head_n (n : nat) (input : list ascii) : list ascii :=
  match n with
  | O => []
  | S n' =>
      match input with
      | [] => []
      | c :: rest =>
          if Ascii.eqb c newline then c :: head_n n' rest
          else c :: head_n n rest
      end
  end.

(** The whole pipeline, on the bytes [cat] reads from the random device. *)
Definition suffix_pipeline (dev_urandom : list ascii) : list ascii :=
  head_n 1 (fold_w 4 (tr_dc tr_set dev_urandom)).

(** *** The JavaScript side *)

(** [Buffer.prototype.toString()]: the pipeline only emits ASCII bytes, which
    decode to themselves. *)
Definition toString (b : list ascii) : string := string_of_list_ascii b.

(** White space and line terminators removed by [String.prototype.trim], in
    the ASCII range: TAB, LF, VT, FF, CR and SPACE. *)
Definition is_js_space (c : ascii) : bool :=
  in_range "009" "013" c || Ascii.eqb c space.

Fixpoint trim_start (l : list ascii) : list ascii :=
  match l with
  | c :: rest => if is_js_space c then trim_start rest else l
  | [] => []
  end.

Definition trim (s : string) : string :=
  string_of_list_ascii
    (rev (trim_start (rev (trim_start (list_ascii_of_string s))))).

(** What the module evaluation reads from and does to its surroundings. *)
Record World := mkWorld {
  process_env : gmap string string;  (* [process.env] *)
  dotenv_file : gmap string string;  (* the assignments of [.env], parsed; empty when the file is absent *)
  dev_urandom : list ascii;          (* the bytes the pipeline reads from the random device (which never ends) in this load *)
  execs : list string                (* commands run through [execSync], oldest first *)
}.

(** Evaluation of the module threads the world through its statements. *)
Definition JS (A : Type) : Type := World -> A * World.

Definition ret {A} (a : A) : JS A := fun w => (a, w).
Definition bind {A B} (m : JS A) (k : A -> JS B) : JS B :=
  fun w => let (a, w') := m w in k a w'.

Notation "x <- m ;; k" := (bind m (fun x => k))
  (at level 100, m at next level, right associativity).

(** [require('dotenv').config({ path: '.env' })]: every assignment of the file
    whose key is not yet in [process.env] is added; keys already set win. *)
Definition dotenv_config : JS unit := fun w =>
  (tt, mkWorld (process_env w ∪ dotenv_file w) (dotenv_file w) (dev_urandom w) (execs w)).

Definition random_suffix_command : string :=
  "cat /dev/urandom | tr -dc 'a-z0-9' | fold -w 4 | head -n 1".

(** [require('child_process').execSync(random_suffix_command)]: runs the
    pipeline once and returns what it wrote. *)
Definition execSync_random_suffix : JS (list ascii) := fun w =>
  (suffix_pipeline (dev_urandom w),
   mkWorld (process_env w) (dotenv_file w) (dev_urandom w)
           (execs w ++ [random_suffix_command])).

(** Reading [process.env], as the spread [...process.env] does. *)
Definition get_process_env : JS (gmap string string) := fun w => (process_env w, w).

Record App := mkApp {
  name : string;
  script : string;
  interpreter : string;
  env : gmap string string;
  args : string
}.

Record Exports := mkExports { apps : list App }.

(** [{ ...process.env, PROJECT_NAME: PROJECT_NAME }] *)
Definition spread_env (PROJECT_NAME : string) : JS (gmap string string) :=
  penv <- get_process_env ;;
  ret (<["PROJECT_NAME" := PROJECT_NAME]> penv).

(** The module body, statement by statement. *)
Definition ecosystem_config : JS Exports :=
  _ <- dotenv_config ;;
  out <- execSync_random_suffix ;;
  let RANDOM_SUFFIX := trim (toString out) in
  let PROJECT_NAME := "test_" +:+ RANDOM_SUFFIX in
  env1 <- spread_env PROJECT_NAME ;;
  env2 <- spread_env PROJECT_NAME ;;
  env3 <- spread_env PROJECT_NAME ;;
  env4 <- spread_env PROJECT_NAME ;;
  env5 <- spread_env PROJECT_NAME ;;
  env6 <- spread_env PROJECT_NAME ;;
  ret (mkExports [
    mkApp "TM1" "neurons/miner.py" "python3" env1
      ("--wallet.name Bistro --wallet.hotkey M1 --device cuda:2 --subtensor.network ws://127.0.0.1:9945 --netuid 1 --use_wandb --project "
         +:+ dq +:+ PROJECT_NAME +:+ dq +:+ " --local");
    mkApp "TM2" "neurons/miner.py" "python3" env2
      ("--wallet.name Bistro --wallet.hotkey M2 --device cuda:3 --subtensor.network ws://127.0.0.1:9945 --netuid 1 --use_wandb --project "
         +:+ dq +:+ PROJECT_NAME +:+ dq +:+ " --local");
    mkApp "TM3" "neurons/miner.py" "python3" env3
      ("--wallet.name Bistro --wallet.hotkey M3 --device cuda:4 --subtensor.network ws://127.0.0.1:9945 --netuid 1 --use_wandb --project "
         +:+ dq +:+ PROJECT_NAME +:+ dq +:+ " --local");
    mkApp "TM4" "neurons/miner.py" "python3" env4
      ("--wallet.name Bistro --wallet.hotkey M4 --device cuda:5 --subtensor.network ws://127.0.0.1:9945 --netuid 1 --use_wandb --project "
         +:+ dq +:+ PROJECT_NAME +:+ dq +:+ "--local");
    mkApp "TM5" "neurons/miner.py" "python3" env5
      ("--wallet.name Bistro --wallet.hotkey M5 --device cuda:6 --subtensor.network ws://127.0.0.1:9945 --netuid 1 --use_wandb --project "
         +:+ dq +:+ PROJECT_NAME +:+ dq +:+ " --local");
    mkApp "TV1" "neurons/validator.py" "python3" env6
      ("--wallet.name Bistro --wallet.hotkey V1 --device cuda:1 --subtensor.network ws://127.0.0.1:9945 --netuid 1 --use_wandb --project "
         +:+ dq +:+ PROJECT_NAME +:+ dq +:+ " --local")
  ]).

(** The values of the two module constants in a given world. *)
Definition RANDOM_SUFFIX (w : World) : string :=
  trim (toString (suffix_pipeline (dev_urandom w))).

Definition PROJECT_NAME (w : World) : string := "test_" +:+ RANDOM_SUFFIX w.

(** One load of the configuration: the exported object. *)
Definition load (w : World) : Exports := fst (ecosystem_config w).

End Ecosystem.

(** ** The [templar_restart] tasks: restarting PM2 processes by name *)

Module Restart.

(** Variables of the play.  [None] is an undefined variable. *)
Record Vars := mkVars {
  templar_path : string;
  validator_hotkeys : option (list string);
  aggregator_hotkeys : option (list string);
  miner_hotkeys : option (list string)
}.

(** Templating either yields a value or fails the task. *)
Inductive result (A : Type) : Type :=
  | Ok (a : A)
  | Failed (msg : string).
Arguments Ok {A} a.
Arguments Failed {A} msg.

(** A variable used without [default]: undefined is an error. *)
Definition lookup_var {A} (var : string) (v : option A) : result A :=
  match v with
  | Some a => Ok a
  | None => Failed ("'" +:+ var +:+ "' is undefined")
  end.

(** The [default] filter. *)
Definition default {A} (v : option A) (d : A) : A :=
  match v with Some a => a | None => d end.

(** [range(start, stop) | list] *)
Definition range (start stop : nat) : list nat := seq start (stop - start).

(** One run of the [shell] module inside a loop: the loop item, the command
    line handed to the shell and the directory it runs in. *)
Record ShellRun := mkShellRun {
  item : nat;
  cmd : string;
  chdir : string
}.

(** A task with [loop] and [when]: the condition is evaluated for each item
    and the action runs for the items that pass, in the order of the loop.
    An empty loop runs nothing. *)
Definition run_loop (loop : list nat) (when : nat -> bool)
    (action : nat -> ShellRun) : list ShellRun :=
  flat_map (fun it => if when it then [action it] else []) loop.

(** "Restart validator processes via PM2" *)
Definition restart_validator (v : Vars) : result (list ShellRun) :=
  match lookup_var "validator_hotkeys" (validator_hotkeys v) with
  | Failed msg => Failed msg
  | Ok hotkeys =>
      Ok (run_loop (range 1 (length hotkeys + 1))
            (fun _ => (0 <? length hotkeys)%nat)
            (fun it => mkShellRun it
               ("pm2 restart ecosystem.config.js --only " +:+ dq +:+ "TV" +:+ pretty it +:+ dq)
               (templar_path v)))
  end.

(** "Restart aggregator processes via PM2" *)
Definition restart_aggregator (v : Vars) : result (list ShellRun) :=
  let hotkeys := default (aggregator_hotkeys v) [] in
  Ok (run_loop (range 1 (length hotkeys + 1))
        (fun _ => (0 <? length hotkeys)%nat)
        (fun it => mkShellRun it
           ("pm2 restart ecosystem.config.js --only " +:+ dq +:+ "TA" +:+ pretty it +:+ dq)
           (templar_path v))).

(** "Restart miner processes via PM2" *)
Definition restart_miner (v : Vars) : result (list ShellRun) :=
  match lookup_var "miner_hotkeys" (miner_hotkeys v) with
  | Failed msg => Failed msg
  | Ok hotkeys =>
      Ok (run_loop (range 1 (length hotkeys + 1))
            (fun _ => (0 <? length hotkeys)%nat)
            (fun it => mkShellRun it
               ("pm2 restart ecosystem.config.js --only " +:+ dq +:+ "TM" +:+ pretty it +:+ dq)
               (templar_path v)))
  end.

(** The roles, their restart task, and the instance count supplied for each
    (the number of hotkeys; the aggregator list may be left undefined). *)
Inductive Role := miner | validator | aggregator.

Definition restart (r : Role) : Vars -> result (list ShellRun) :=
  match r with
  | miner => restart_miner
  | validator => restart_validator
  | aggregator => restart_aggregator
  end.

Definition count (r : Role) (v : Vars) : option nat :=
  match r with
  | miner => length <$> miner_hotkeys v
  | validator => length <$> validator_hotkeys v
  | aggregator => Some (length (default (aggregator_hotkeys v) []))
  end.

(** Process naming, as the specification words it: role prefix, then index. *)
Definition Prefix (r : Role) : string :=
  match r with
  | miner => "TM"
  | validator => "TV"
  | aggregator => "TA"
  end.

Definition ProcessName (r : Role) (index : nat) : string :=
  Prefix r +:+ pretty index.

(** The restart directive handed to the process manager. *)
Definition restart_directive (config_file process_name : string) : string :=
  "restart " +:+ config_file +:+ " --only " +:+ dq +:+ process_name +:+ dq.

(** The three restart tasks in file order; the first failure ends the run.
    The two [include_tasks] entries above them bring in [local.yml] and
    [remote.yml], which are other files. *)
Definition templar_restart (v : Vars) : result (list ShellRun) :=
  match restart_validator v with
  | Failed msg => Failed msg
  | Ok r1 =>
      match restart_aggregator v with
      | Failed msg => Failed msg
      | Ok r2 =>
          match restart_miner v with
          | Failed msg => Failed msg
          | Ok r3 => Ok (r1 ++ r2 ++ r3)%list
          end
      end
  end.

End Restart.

(** ** The interactive launcher [docker_run] *)

Module DockerRun.

Definition backslash : ascii := "\"%char.
Definition tab : ascii := "009"%char.
Definition nul : ascii := "000"%char.
Definition dash : ascii := "-"%char.

(** *** Builtins *)

(** The line scan of [read] (no [-r]): a backslash quotes the next character,
    a backslash-newline pair disappears, an unquoted newline ends the line,
    NUL bytes are skipped.  Each character is kept with its quoted flag; the
    second component is the unread input. *)
Fixpoint read_line (input : string) : list (ascii * bool) * string :=
  match input with
  | "" => ([], "")
  | String c rest =>
      if Ascii.eqb c backslash then
        match rest with
        | "" => ([], "")
        | String c' rest' =>
            if Ascii.eqb c' newline then read_line rest'
            else let (l, r) := read_line rest' in ((c', true) :: l, r)
        end
      else if Ascii.eqb c newline then ([], rest)
      else if Ascii.eqb c nul then read_line rest
      else let (l, r) := read_line rest in ((c, false) :: l, r)
  end.

(** Unquoted white space of the default [IFS]. *)
Definition is_ifs_space (q : ascii * bool) : bool :=
  negb (snd q) &&
  (Ascii.eqb (fst q) space || Ascii.eqb (fst q) tab || Ascii.eqb (fst q) newline).

Fixpoint strip_left (l : list (ascii * bool)) : list (ascii * bool) :=
  match l with
  | q :: rest => if is_ifs_space q then strip_left rest else l
  | [] => []
  end.

(** The line is kept as a C string: a NUL that was quoted into it ends it. *)
Fixpoint before_nul (l : list (ascii * bool)) : list (ascii * bool) :=
  match l with
  | q :: rest => if Ascii.eqb (fst q) nul then [] else q :: before_nul rest
  | [] => []
  end.

(** [read response]: with a single name the whole line is assigned, without
    its leading and trailing [IFS] white space.  Returns the value of
    [response] and the unread input; at end of input the value is what was
    read so far. *)
Definition read (input : string) : string * string :=
  let (l, rest) := read_line input in
  (string_of_list_ascii
     (List.map fst (rev (strip_left (rev (strip_left (before_nul l)))))),
   rest).

Definition echo_flag (c : ascii) : bool :=
  Ascii.eqb c "n" || Ascii.eqb c "e" || Ascii.eqb c "E".

(** A word [echo] takes as options: a dash, then one or more of n, e, E. *)
Definition is_echo_option (word : string) : bool :=
  match word with
  | String c (String c' rest) =>
      Ascii.eqb c dash && forallb echo_flag (c' :: list_ascii_of_string rest)
  | _ => false
  end.

Definition mentions_n (word : string) : bool :=
  existsb (Ascii.eqb "n") (list_ascii_of_string word).

(** [echo "$word"] ([n_given = false]) and [echo -n "$word"]
    ([n_given = true]), the two shapes the prompt functions use.  A word that
    is itself an option is consumed as one and nothing of it is printed. *)
Definition echo (n_given : bool) (word : string) : string :=
  if is_echo_option word then
    (if n_given || mentions_n word then "" else String newline "")
  else word +:+ (if n_given then "" else String newline "").

(** [$(...)]: the captured standard output without its trailing newlines. *)
Fixpoint command_substitution (out : string) : string :=
  match out with
  | "" => ""
  | String c out' =>
      let t := command_substitution out' in
      if Ascii.eqb c newline && negb (nonempty t) then "" else String c t
  end.

(** *** The two functions of the script

    Both run inside [$(...)]: they return everything they wrote to standard
    output, and the input left unread. *)

Definition prompt_with_default (prompt default stdin : string) : string * string :=
  let out1 := echo true (prompt +:+ " [" +:+ default +:+ "]: ") in
  let (response, stdin') := read stdin in
  let out2 := echo false (if nonempty response then response else default) in
  (out1 +:+ out2, stdin').

(** What a computation that may loop forever does. *)
Inductive outcome (A : Type) : Type :=
  | Done (a : A)
  | Hangs.
Arguments Done {A} a.
Arguments Hangs {A}.

(** The [while [ -z "$response" ]] loop and the final [echo "$response"].
    Running out of [fuel] is reported as [Hangs]. *)
Fixpoint prompt_required_loop (fuel : nat) (prompt stdin : string)
    : outcome (string * string) :=
  match fuel with
  | O => Hangs
  | S fuel' =>
      let out1 := echo true (prompt +:+ ": ") in
      let (response, stdin') := read stdin in
      if nonempty response then Done (out1 +:+ echo false response, stdin')
      else
        match prompt_required_loop fuel' prompt stdin' with
        | Done (out, rest) =>
            Done (out1 +:+ echo false "This field is required" +:+ out, rest)
        | Hangs => Hangs
        end
  end.

(** An iteration that leaves [response] empty has consumed at least one
    character unless the input is exhausted, and then every later [read]
    returns empty as well; so one more iteration than there are characters
    decides whether the loop ends. *)
Definition prompt_required (prompt stdin : string) : outcome (string * string) :=
  prompt_required_loop (S (String.length stdin)) prompt stdin.

(** *** The script *)

Record Shell := mkShell {
  vars : gmap string string;  (* shell variables *)
  exported : gset string;     (* names with the export attribute *)
  stdin : string              (* input not read yet *)
}.

(** The shell starts with the variables of its environment, all exported. *)
Definition start (ambient : gmap string string) (input : string) : Shell :=
  mkShell ambient (dom ambient) input.

Definition obind {A B} (m : outcome A) (k : A -> outcome B) : outcome B :=
  match m with
  | Done a => k a
  | Hangs => Hangs
  end.

Notation "x <- m ;; k" := (obind m (fun x => k))
  (at level 100, m at next level, right associativity).

(** [x=$(prompt_with_default prompt default)] *)
Definition assign_prompt_with_default (x prompt default : string) (sh : Shell)
    : outcome Shell :=
  let (out, rest) := prompt_with_default prompt default (stdin sh) in
  Done (mkShell (<[x := command_substitution out]> (vars sh)) (exported sh) rest).

(** [x=$(prompt_required prompt)] *)
Definition assign_prompt_required (x prompt : string) (sh : Shell) : outcome Shell :=
  match prompt_required prompt (stdin sh) with
  | Done (out, rest) =>
      Done (mkShell (<[x := command_substitution out]> (vars sh)) (exported sh) rest)
  | Hangs => Hangs
  end.

(** [x=value] *)
Definition assign (x value : string) (sh : Shell) : Shell :=
  mkShell (<[x := value]> (vars sh)) (exported sh) (stdin sh).

(** [export names] *)
Definition export (names : list string) (sh : Shell) : Shell :=
  mkShell (vars sh) (exported sh ∪ list_to_set names) (stdin sh).

(** [$x] and [${x}]: unset variables expand to nothing. *)
Definition expand (sh : Shell) (x : string) : string :=
  match vars sh !! x with Some v => v | None => "" end.

(** An external command: its argument vector and the environment it gets,
    the exported variables of the shell. *)
Record Invocation := mkInvocation {
  argv : list string;
  environ : gmap string string
}.

Definition invoke (words : list string) (sh : Shell) : Invocation :=
  mkInvocation words (filter (fun kv => kv.1 ∈ exported sh) (vars sh)).

(** The script from the first prompt to [docker compose ... up -d]: the
    shell state at that point and the command started. *)
Definition docker_run (sh : Shell) : outcome (Shell * Invocation) :=
  sh <- assign_prompt_with_default "NODE_TYPE" "Enter node type (miner/validator)" "miner" sh ;;
  sh <- assign_prompt_required "WALLET_NAME" "Enter wallet name" sh ;;
  sh <- assign_prompt_required "WALLET_HOTKEY" "Enter wallet hotkey" sh ;;
  sh <- assign_prompt_required "WANDB_API_KEY" "Enter Weights & Biases API key" sh ;;
  sh <- assign_prompt_with_default "NETWORK" "Enter network" "test" sh ;;
  sh <- assign_prompt_with_default "CUDA_DEVICE" "Enter CUDA device" "cuda:0" sh ;;
  sh <- assign_prompt_with_default "DEBUG" "Enable debug mode? (true/false)" "false" sh ;;
  let sh := export ["WALLET_NAME"; "WALLET_HOTKEY"; "WANDB_API_KEY"; "NETWORK"; "CUDA_DEVICE"; "DEBUG"] sh in
  let sh := assign "COMPOSE_FILE" ("docker/compose." +:+ expand sh "NODE_TYPE" +:+ ".yml") sh in
  Done (sh, invoke ["docker"; "compose"; "-f"; expand sh "COMPOSE_FILE"; "up"; "-d"] sh).

(** A run of the script in a given environment on a given input. *)
Definition run (ambient : gmap string string) (input : string)
    : outcome (Shell * Invocation) :=
  docker_run (start ambient input).

(** The seven variables the launcher is said to hand to the compose command. *)
Definition launcher_variables : list string :=
  ["NODE_TYPE"; "WALLET_NAME"; "WALLET_HOTKEY"; "WANDB_API_KEY"; "NETWORK"; "CUDA_DEVICE"; "DEBUG"].

End DockerRun.

(** ** Notions used to state the properties *)

Module Descriptor.
Import Ecosystem Restart.

(** Lowercase letters and digits. *)
Definition alphabet : list ascii :=
  list_ascii_of_string "abcdefghijklmnopqrstuvwxyz0123456789".

(** The letters and digits among the bytes of the random device, in order:
    the material the suffix is drawn from. *)
Definition draw (w : World) : list ascii := tr_dc tr_set (dev_urandom w).

(** All character sequences of length [n] over a list of characters. *)
Fixpoint sequences (chars : list ascii) (n : nat) : list (list ascii) :=
  match n with
  | O => [[]]
  | S n' => flat_map (fun c => List.map (cons c) (sequences chars n')) chars
  end.

(** A world whose random device delivers exactly the given bytes. *)
Definition world_drawing (d : list ascii) : World := mkWorld ∅ ∅ d [].

(** Do all characters of the string pass the test? *)
Fixpoint all_chars (p : ascii -> bool) (s : string) : bool :=
  match s with
  | String c s' => p c && all_chars p s'
  | "" => true
  end.

(** Does ["--"] occur in the string? *)
Fixpoint contains_double_dash (s : string) : bool :=
  match s with
  | String a s' =>
      (Ascii.eqb a "-" &&
       match s' with String b _ => Ascii.eqb b "-" | "" => false end)
      || contains_double_dash s'
  | "" => false
  end.

(** A word in which a flag starts after the first character: the separator
    in front of that flag is missing. *)
Definition glued_flag (word : string) : bool :=
  match word with
  | String _ rest => contains_double_dash rest
  | "" => false
  end.

(** Every flag of the argument string starts a word of its own. *)
Definition well_spaced (arguments : string) : bool :=
  forallb (fun word => negb (glued_flag word)) (words arguments).

(** The argument string up to and including the [--project] flag, for an
    entry with the given hotkey label and device. *)
Definition front (hotkey device : string) : string :=
  "--wallet.name Bistro --wallet.hotkey " +:+ hotkey +:+ " --device " +:+ device
  +:+ " --subtensor.network ws://127.0.0.1:9945 --netuid 1 --use_wandb --project".

(** The quoted project name, as it is substituted into the argument string. *)
Definition project_value (w : World) : string := dq +:+ PROJECT_NAME w +:+ dq.

(** The entries of a role, by the prefix of their name, and how many there are. *)
Definition role_names (r : Role) (cfg : Exports) : list string :=
  List.filter (String.prefix (Prefix r)) (List.map name (apps cfg)).

Definition role_count (r : Role) (cfg : Exports) : nat :=
  length (role_names r cfg).

End Descriptor.

(** ** Scenarios and observations used in the statements *)

Module Scenarios.
Import Restart DockerRun.

(** The shell run of a restart task for a role and a loop index, with the
    process name written as role prefix and index. *)
Definition action (r : Role) (v : Vars) (it : nat) : ShellRun :=
  mkShellRun it
    ("pm2 restart ecosystem.config.js --only " +:+ dq +:+ Prefix r +:+ pretty it +:+ dq)
    (templar_path v).

(** A process started with HOME and an old PROJECT_NAME, a [.env] file that
    sets an API key and HOME, and a random device delivering [A-b!cZ9 x_yQq7]. *)
Definition example_world : Ecosystem.World :=
  Ecosystem.mkWorld
    (<["HOME" := "/root"]> (<["PROJECT_NAME" := "old"]> ∅))
    (<["WANDB_API_KEY" := "0123abcd"]> (<["HOME" := "/tmp"]> ∅))
    (list_ascii_of_string "A-b!cZ9 x_yQq7")
    [].

(** An inventory with one validator, five miners and no aggregator list. *)
Definition example_vars : Vars :=
  mkVars "/opt/templar" (Some ["v1"]) None (Some ["m1"; "m2"; "m3"; "m4"; "m5"]).

(** What is typed at the terminal: each answer followed by RETURN. *)
Definition typed (answers : list string) : string :=
  foldr (fun a rest => a +:+ String newline rest) "" answers.

(** The value of a variable, and the command started, at the end of a run. *)
Definition variable_after (x : string) (o : outcome (Shell * Invocation)) : option string :=
  match o with
  | Done (sh, _) => vars sh !! x
  | Hangs => None
  end.

Definition exported_after (x : string) (o : outcome (Shell * Invocation)) : option string :=
  match o with
  | Done (_, inv) => environ inv !! x
  | Hangs => None
  end.

Definition command_after (o : outcome (Shell * Invocation)) : option (list string) :=
  match o with
  | Done (_, inv) => Some (argv inv)
  | Hangs => None
  end.

(** An operator who answers every prompt but leaves the network blank. *)
Definition blank_network : string :=
  typed ["miner"; "alice"; "hk1"; "0123abcd"; ""; "cuda:0"; "false"].

(** An operator who asks for a validator node. *)
Definition validator_answers : string :=
  typed ["validator"; "alice"; "hk1"; "0123abcd"; "finney"; "cuda:1"; "true"].

End Scenarios.

(** ** The task file as a whole: the two includes, then the restart tasks *)

Module Playbook.
Import Restart.

(** What a run of the task file did, in order: files it included and shell
    commands it ran. *)
Inductive Event :=
  | Included (file : string)
  | Ran (run : ShellRun).

(** The events up to the end or up to the task that failed. *)
Record Outcome := mkOutcome {
  events : list Event;
  failure : option string
}.

(** An [include_tasks] task with a [when] condition.  What the included file
    does is its own. *)
Definition include_tasks (file : string) (when : result bool) : Outcome :=
  match when with
  | Failed msg => mkOutcome [] (Some msg)
  | Ok true => mkOutcome [Included file] None
  | Ok false => mkOutcome [] None
  end.

(** A looping [shell] task: a failure of the templating runs nothing. *)
Definition shell_task (res : result (list ShellRun)) : Outcome :=
  match res with
  | Ok runs => mkOutcome (List.map Ran runs) None
  | Failed msg => mkOutcome [] (Some msg)
  end.

(** Tasks run one after the other; a failed task ends the run. *)
Definition and_then (o1 o2 : Outcome) : Outcome :=
  match failure o1 with
  | Some _ => o1
  | None => mkOutcome (events o1 ++ events o2)%list (failure o2)
  end.

(** A condition is met when it evaluates to [True]; [None] is not. *)
Definition truthy (b : option bool) : bool :=
  match b with Some true => true | _ => false end.

Section Tasks.

(** The values [remote_mode] may take and Ansible's [bool] filter on them,
    which yields [True], [False] or, for a null value, [None]. *)
Context {value : Type} (bool_filter : value -> option bool).

(** [when: not remote_mode | bool] *)
Definition when_local (remote_mode : option value) : result bool :=
  match lookup_var "remote_mode" remote_mode with
  | Ok x => Ok (negb (truthy (bool_filter x)))
  | Failed msg => Failed msg
  end.

(** [when: remote_mode | bool] *)
Definition when_remote (remote_mode : option value) : result bool :=
  match lookup_var "remote_mode" remote_mode with
  | Ok x => Ok (truthy (bool_filter x))
  | Failed msg => Failed msg
  end.

(** The five tasks of the file, top to bottom. *)
Definition tasks (remote_mode : option value) (v : Vars) : Outcome :=
  and_then (include_tasks "local.yml" (when_local remote_mode))
    (and_then (include_tasks "remote.yml" (when_remote remote_mode))
       (and_then (shell_task (restart_validator v))
          (and_then (shell_task (restart_aggregator v))
             (shell_task (restart_miner v))))).

End Tasks.

(** The shell commands among the events, in order. *)
Definition commands (o : Outcome) : list string :=
  omap (fun e => match e with Ran r => Some (cmd r) | Included _ => None end) (events o).

(** The files included, in order. *)
Definition included (o : Outcome) : list string :=
  omap (fun e => match e with Included f => Some f | Ran _ => None end) (events o).

End Playbook.

(** ** The launcher from its first to its last line *)

Module Launcher.
Import DockerRun.

(** The one-letter escapes [echo -e] expands.  The numeric and Unicode
    escapes and [\c] are not among the texts of the script and are left as
    they are written. *)
Definition escape_char (c : ascii) : option ascii :=
  if Ascii.eqb c "a" then Some "007"%char
  else if Ascii.eqb c "b" then Some "008"%char
  else if Ascii.eqb c "e" || Ascii.eqb c "E" then Some "027"%char
  else if Ascii.eqb c "f" then Some "012"%char
  else if Ascii.eqb c "n" then Some "010"%char
  else if Ascii.eqb c "r" then Some "013"%char
  else if Ascii.eqb c "t" then Some "009"%char
  else if Ascii.eqb c "v" then Some "011"%char
  else if Ascii.eqb c backslash then Some backslash
  else None.

Fixpoint expand_escapes (s : string) : string :=
  match s with
  | String c (String d rest as tail) =>
      if Ascii.eqb c backslash then
        match escape_char d with
        | Some x => String x (expand_escapes rest)
        | None => String c (expand_escapes tail)
        end
      else String c (expand_escapes tail)
  | _ => s
  end.

(** [echo -e "$word"] *)
Definition echo_e (word : string) : string :=
  if is_echo_option word then
    (if mentions_n word then "" else String newline "")
  else expand_escapes word +:+ String newline "".

(** How the script ends: it exits, or it is stuck in a prompt loop.  Either
    way [terminal] is what the script itself has written to the terminal. *)
Inductive Ending :=
  | Exited (terminal : string) (status : nat) (sh : Shell) (inv : Invocation)
  | Stuck (terminal : string).

(** Lines 31 and 32. *)
Definition banner : string :=
  echo false "🤖 Templar Mining Docker Configuration"
  +:+ echo false "-------------------------------------".

(** The whole script under [set -e].  [docker] is the exit status of the
    compose command.  The prompt functions run inside [$(...)], so nothing
    they write reaches the terminal. *)
Definition script (docker : Invocation -> nat) (ambient : gmap string string)
    (input : string) : Ending :=
  match run ambient input with
  | Hangs => Stuck banner
  | Done (sh, inv) =>
      let starting := echo_e "\n📦 Starting containers..." in
      if (docker inv =? 0)%nat then
        Exited (banner +:+ starting
                +:+ echo_e "\n✅ Containers started successfully!"
                +:+ echo false "📝 Logs are available in the ./logs directory"
                +:+ echo_e "\nTo follow logs, run:"
                +:+ echo false ("docker compose -f " +:+ expand sh "COMPOSE_FILE" +:+ " logs -f"))
               0 sh inv
      else Exited (banner +:+ starting) (docker inv) sh inv
  end.

End Launcher.

(** ** Shapes of input used in the statements *)

Module Shapes.
Import DockerRun Descriptor.

Definition blank (c : ascii) : bool := Ascii.eqb c space || Ascii.eqb c tab.

(** Characters [read] takes as they are. *)
Definition plain_char (c : ascii) : bool :=
  negb (Ascii.eqb c backslash) && negb (Ascii.eqb c newline) && negb (Ascii.eqb c nul).

(** A string of blanks only. *)
Definition blanks (s : string) : bool := all_chars blank s.

(** A string of plain characters only. *)
Definition plain (s : string) : bool := all_chars plain_char s.

Definition starts_blank (l : list ascii) : bool :=
  match l with c :: _ => blank c | [] => false end.

(** No blank at either end. *)
Definition tidy (s : string) : bool :=
  negb (starts_blank (list_ascii_of_string s))
  && negb (starts_blank (rev (list_ascii_of_string s))).

Definition ends_with_newline (s : string) : bool :=
  match rev (list_ascii_of_string s) with
  | c :: _ => Ascii.eqb c newline
  | [] => false
  end.

(** An answer typed as one line that [read] and [echo] hand on unchanged. *)
Definition plain_answer (s : string) : bool :=
  nonempty s && plain s && tidy s && negb (is_echo_option s).

(** A character of a line that no backslash has quoted. *)
Definition unquoted (c : ascii) : ascii * bool := (c, false).

(** A later load of the same file, with other random bytes. *)
Definition reload (w : Ecosystem.World) (bytes : list ascii) : Ecosystem.World :=
  let w1 := snd (Ecosystem.ecosystem_config w) in
  Ecosystem.mkWorld (Ecosystem.process_env w1) (Ecosystem.dotenv_file w1) bytes
    (Ecosystem.execs w1).

(** The commands of a restart task for the indices 1 to [n]. *)
Definition task_commands (r : Restart.Role) (v : Restart.Vars) (n : nat) : list string :=
  List.map (fun i => Restart.cmd (Scenarios.action r v i)) (seq 1 n).

(** The word after the first occurrence of a flag. *)
Fixpoint flag_value (flag : string) (ws : list string) : option string :=
  match ws with
  | w :: rest => if String.eqb w flag then head rest else flag_value flag rest
  | [] => None
  end.

End Shapes.

(** * Facts about text *)

Module TextFacts.

Lemma append_assoc s1 s2 s3 : (s1 +:+ s2) +:+ s3 = s1 +:+ (s2 +:+ s3).
Proof.
  induction s1 as [|c s1 IH]; [reflexivity|].
  change (String c ((s1 +:+ s2) +:+ s3) = String c (s1 +:+ (s2 +:+ s3))).
  by f_equal.
Qed.

Lemma append_nil_r s : s +:+ "" = s.
Proof.
  induction s as [|c s IH]; [reflexivity|].
  change (String c (s +:+ "") = String c s). by f_equal.
Qed.

End TextFacts.

(** * Properties of the configuration module *)

Module EcosystemFacts.
Import Ecosystem Restart Descriptor Scenarios TextFacts.

Lemma tr_set_not_newline c : tr_set c = true -> Ascii.eqb c newline = false.
Proof.
  intros H. destruct (Ascii.eqb_spec c newline) as [->|]; [|reflexivity].
  vm_compute in H. discriminate.
Qed.

Lemma tr_set_not_js_space c : tr_set c = true -> is_js_space c = false.
Proof.
  intros H. destruct (is_js_space c) eqn:E; [|reflexivity].
  exfalso. revert H E.
  destruct c as [[] [] [] [] [] [] [] []]; vm_compute; congruence.
Qed.

Lemma tr_set_not_space c : tr_set c = true -> Ascii.eqb c space = false.
Proof.
  intros H. destruct (Ascii.eqb_spec c space) as [->|]; [|reflexivity].
  vm_compute in H. discriminate.
Qed.

Lemma tr_set_not_dash c : tr_set c = true -> Ascii.eqb c "-" = false.
Proof.
  intros H. destruct (Ascii.eqb_spec c "-"%char) as [->|]; [|reflexivity].
  vm_compute in H. discriminate.
Qed.

Lemma tr_set_alphabet c : tr_set c = true <-> In c alphabet.
Proof.
  split.
  - destruct c as [[] [] [] [] [] [] [] []]; vm_compute; intros H;
      first [ discriminate H | tauto ].
  - intros H. vm_compute in H.
    repeat (destruct H as [<-|H]; [reflexivity|]). destruct H.
Qed.

Lemma draw_letters w : Forall (fun c => tr_set c = true) (draw w).
Proof.
  unfold draw, tr_dc. apply Forall_forall. intros c Hc.
  apply list_elem_of_In, filter_In in Hc. tauto.
Qed.

(** What the pipeline, [toString] and [trim] leave of a run of letters and
    digits: its first four characters. *)
Lemma suffix_of_letters (L : list ascii) :
  Forall (fun c => tr_set c = true) L ->
  trim (toString (head_n 1 (fold_w 4 L))) = string_of_list_ascii (take 4 L).
Proof.
  intros HL.
  destruct L as [|a [|b [|c [|d [|e rest]]]]];
    repeat match goal with
           | H : Forall _ (_ :: _) |- _ => apply Forall_cons in H; destruct H
           end;
    unfold trim, toString, fold_w;
    cbn [fold_go head_n Nat.ltb Nat.leb Nat.add];
    rewrite ?tr_set_not_newline by assumption;
    cbn [fold_go head_n Nat.ltb Nat.leb Nat.add];
    rewrite ?Ascii.eqb_refl, ?tr_set_not_newline by assumption;
    rewrite list_ascii_of_string_of_list_ascii;
    do 2 (cbn [trim_start rev app];
          change (is_js_space newline) with true;
          rewrite ?tr_set_not_js_space by assumption);
    reflexivity.
Qed.

Lemma RANDOM_SUFFIX_draw w :
  RANDOM_SUFFIX w = string_of_list_ascii (take 4 (draw w)).
Proof. apply suffix_of_letters, draw_letters. Qed.

(** The module body unfolded: what is exported and what is left behind. *)
Lemma load_names w :
  List.map name (apps (load w)) = ["TM1"; "TM2"; "TM3"; "TM4"; "TM5"; "TV1"].
Proof. reflexivity. Qed.

Lemma load_envs w :
  List.map env (apps (load w))
  = replicate 6 (<["PROJECT_NAME" := PROJECT_NAME w]> (process_env w ∪ dotenv_file w)).
Proof. reflexivity. Qed.

Lemma load_world w :
  snd (ecosystem_config w)
  = mkWorld (process_env w ∪ dotenv_file w) (dotenv_file w) (dev_urandom w)
            (execs w ++ [random_suffix_command]).
Proof. reflexivity. Qed.

Lemma string_of_list_ascii_length l :
  String.length (string_of_list_ascii l) = length l.
Proof. induction l; simpl; congruence. Qed.

Lemma string_of_list_ascii_inj l1 l2 :
  string_of_list_ascii l1 = string_of_list_ascii l2 -> l1 = l2.
Proof.
  intros H. rewrite <- (list_ascii_of_string_of_list_ascii l1), H.
  apply list_ascii_of_string_of_list_ascii.
Qed.

Lemma PROJECT_NAME_inj w1 w2 :
  PROJECT_NAME w1 = PROJECT_NAME w2 <-> take 4 (draw w1) = take 4 (draw w2).
Proof.
  unfold PROJECT_NAME. rewrite !RANDOM_SUFFIX_draw. split.
  - intros H. apply string_of_list_ascii_inj.
    by apply (String.app_inj "test_") in H.
  - intros ->. reflexivity.
Qed.

(** *** Enumerating the possible draws *)

Lemma sequences_length chars n :
  length (sequences chars n) = length chars ^ n.
Proof.
  induction n as [|n IH]; [reflexivity|].
  cbn [sequences Nat.pow]. rewrite <- IH. clear IH.
  generalize (sequences chars n). intros S.
  induction chars as [|c chars IHc]; [reflexivity|].
  cbn [flat_map length]. rewrite length_app, length_map, IHc. simpl. lia.
Qed.

Lemma sequences_spec chars n d :
  d ∈ sequences chars n <-> length d = n /\ Forall (fun c => c ∈ chars) d.
Proof.
  revert d. induction n as [|n IH]; intros d; cbn [sequences].
  - rewrite list_elem_of_singleton. split.
    + intros ->. split; [reflexivity | constructor].
    + intros [H _]. destruct d; [reflexivity | discriminate].
  - rewrite list_elem_of_In, in_flat_map. split.
    + intros (c & Hc & Hd). apply in_map_iff in Hd as (d' & <- & Hd').
      apply list_elem_of_In, IH in Hd' as [Hlen Hall]. split.
      * simpl. congruence.
      * constructor; [by apply list_elem_of_In | done].
    + intros [Hlen Hall]. destruct d as [|c d']; [discriminate|].
      apply Forall_cons in Hall as [Hc Hall]. exists c. split.
      * by apply list_elem_of_In.
      * apply in_map, list_elem_of_In, IH. split; [simpl in Hlen; lia | done].
Qed.

Lemma extend_NoDup (chars : list ascii) (S : list (list ascii)) :
  NoDup chars -> NoDup S ->
  NoDup (flat_map (fun c => List.map (cons c) S) chars).
Proof.
  intros Hnd HS.
  induction Hnd as [|c chars Hc Hnd IHc]; cbn [flat_map]; [constructor|].
  apply NoDup_app. split; [|split].
  - apply (NoDup_fmap_2 (cons c)); done.
  - intros d Hd Hd'. apply list_elem_of_In, in_map_iff in Hd as (d1 & <- & _).
    apply list_elem_of_In, in_flat_map in Hd' as (c' & Hc' & Hd').
    apply in_map_iff in Hd' as (d2 & Heq & _). inversion Heq; subst.
    by apply Hc, list_elem_of_In.
  - exact IHc.
Qed.

Lemma sequences_NoDup chars n : NoDup chars -> NoDup (sequences chars n).
Proof.
  intros Hnd. induction n as [|n IH]; cbn [sequences].
  - apply NoDup_singleton.
  - by apply extend_NoDup.
Qed.

Lemma alphabet_NoDup : NoDup alphabet.
Proof. apply NoDup_ListNoDup, (NoDup_nodup ascii_dec alphabet). Qed.

(** A draw of four letters or digits comes back as the suffix. *)
Lemma draw_of_sequence d :
  d ∈ sequences alphabet 4 -> take 4 (draw (world_drawing d)) = d.
Proof.
  intros [Hlen Hall]%sequences_spec. unfold draw, tr_dc, world_drawing.
  cbn [dev_urandom].
  rewrite forallb_filter_id.
  - apply take_ge. lia.
  - apply forallb_forall. intros c Hc. apply tr_set_alphabet.
    apply list_elem_of_In. rewrite Forall_forall in Hall.
    by apply Hall, list_elem_of_In.
Qed.

Lemma filter_agree {A} (P Q : A -> Prop) `{!forall x, Decision (P x)}
    `{!forall x, Decision (Q x)} (l : list A) :
  Forall (fun x => P x <-> Q x) l -> filter P l = filter Q l.
Proof.
  induction 1 as [|x l Hx _ IH]; [reflexivity|].
  rewrite !filter_cons, IH. repeat case_decide; tauto.
Qed.

Lemma filter_eq_NoDup {A} `{EqDecision A} (l : list A) (x : A) :
  NoDup l -> x ∈ l -> length (filter (fun y => y = x) l) = 1.
Proof.
  induction 1 as [|y l Hy Hnd IH]; intros Hx.
  - by apply not_elem_of_nil in Hx.
  - rewrite filter_cons. case_decide as Hyx.
    + subst y. rewrite (filter_agree _ (fun _ => False)).
      * clear. induction l as [|z l IHl]; [reflexivity|].
        rewrite filter_cons_False; [exact IHl | tauto].
      * apply Forall_forall. intros z Hz. split; [|done]. by intros ->.
    + apply IH. apply elem_of_cons in Hx as [->|Hx]; done.
Qed.



Example PROJECT_NAME_example :
  PROJECT_NAME (world_drawing (list_ascii_of_string "A-b!cZ9 x_yQq7")) = "test_bc9x".
Proof. reflexivity. Qed.

(** C3: within one load the suffix command is run exactly once and every
    entry's environment holds the identifier made from its output; two loads
    carry the same identifier exactly when their draws of four characters
    coincide, which under a uniform draw is one case in 36^4 = 1679616. *)
Theorem C3_run_identifier_shared :
  (forall w : World,
      execs (snd (ecosystem_config w)) = (execs w ++ [random_suffix_command])%list /\
      Forall (fun a => env a !! "PROJECT_NAME" = Some (PROJECT_NAME w)) (apps (load w))) /\
  (forall w1 w2 : World,
      PROJECT_NAME w1 = PROJECT_NAME w2 <-> take 4 (draw w1) = take 4 (draw w2)) /\
  (let draws := sequences alphabet 4 in
   N.of_nat (length draws) = 1679616%N /\
   Forall (fun d1 =>
             length (filter (fun d2 => PROJECT_NAME (world_drawing d2)
                                       = PROJECT_NAME (world_drawing d1)) draws) = 1)
          draws).
Proof.
  split; [|split].
  - intros w. split; [reflexivity|].
    apply (Forall_fmap env (fun e => e !! "PROJECT_NAME" = Some (PROJECT_NAME w))).
    change (env <$> apps (load w)) with (List.map env (apps (load w))).
    rewrite load_envs. apply Forall_replicate, lookup_insert_eq.
  - apply PROJECT_NAME_inj.
  - cbv zeta. split.
    + rewrite sequences_length. change (length alphabet) with 36.
      rewrite Nat2N.inj_pow. reflexivity.
    + apply Forall_forall. intros d1 Hd1.
      rewrite (filter_agree _ (fun d2 => d2 = d1)).
      * apply filter_eq_NoDup; [apply sequences_NoDup, alphabet_NoDup | done].
      * apply Forall_forall. intros d2 Hd2.
        rewrite PROJECT_NAME_inj, !draw_of_sequence by done. done.
Qed.


(** The environments of a load on an example: the identifier replaces the
    old PROJECT_NAME, the variable of the process wins over [.env], the key
    only [.env] has is there, and nothing else is. *)
Example load_example_env :
  List.map (fun a => List.map (fun k => env a !! k)
                       ["PROJECT_NAME"; "HOME"; "WANDB_API_KEY"; "PATH"])
           (apps (load example_world))
  = replicate 6 [Some "test_bc9x"; Some "/root"; Some "0123abcd"; None].
Proof. vm_compute. reflexivity. Qed.

(** *** Words of the argument strings *)

Lemma split_spaces_nonnil s : split_spaces s <> [].
Proof. destruct s as [|c s]; simpl; [done|]. by repeat case_match. Qed.

Lemma split_spaces_app_space s1 s2 :
  split_spaces (s1 +:+ String space s2) = (split_spaces s1 ++ split_spaces s2)%list.
Proof.
  induction s1 as [|c s1 IH]; [reflexivity|].
  simpl. rewrite IH.
  destruct (Ascii.eqb c space); [reflexivity|].
  pose proof (split_spaces_nonnil s1). by destruct (split_spaces s1).
Qed.

Lemma split_spaces_nospace s :
  all_chars (fun c => negb (Ascii.eqb c space)) s = true -> split_spaces s = [s].
Proof.
  induction s as [|c s IH]; [reflexivity|]. cbn [all_chars split_spaces].
  intros [Hc Hs]%andb_prop. apply negb_true_iff in Hc. by rewrite Hc, IH.
Qed.

Lemma words_app_space s1 s2 :
  words (s1 +:+ String space s2) = (words s1 ++ words s2)%list.
Proof. unfold words. by rewrite split_spaces_app_space, List.filter_app. Qed.

Lemma words_nospace s :
  all_chars (fun c => negb (Ascii.eqb c space)) s = true ->
  nonempty s = true ->
  words s = [s].
Proof.
  intros H Hs. unfold words. rewrite split_spaces_nospace by done.
  cbn [List.filter]. by rewrite Hs.
Qed.

Lemma all_chars_app p s1 s2 :
  all_chars p (s1 +:+ s2) = all_chars p s1 && all_chars p s2.
Proof. induction s1 as [|c s1 IH]; [reflexivity|]. simpl. by rewrite IH, andb_assoc. Qed.

Lemma all_chars_impl (p q : ascii -> bool) s :
  (forall c, p c = true -> q c = true) -> all_chars p s = true -> all_chars q s = true.
Proof.
  intros Hpq. induction s as [|c s IH]; [done|]. simpl.
  intros [Hc Hs]%andb_prop. by rewrite (Hpq c Hc), IH.
Qed.

Lemma all_chars_of_list p l :
  Forall (fun c => p c = true) l -> all_chars p (string_of_list_ascii l) = true.
Proof. induction 1 as [|c l Hc _ IH]; [done|]. simpl. by rewrite Hc, IH. Qed.

Lemma contains_double_dash_skip s rest :
  all_chars (fun c => negb (Ascii.eqb c "-")) s = true ->
  contains_double_dash (s +:+ rest) = contains_double_dash rest.
Proof.
  induction s as [|c s IH]; [reflexivity|]. simpl.
  intros [Hc Hs]%andb_prop. apply negb_true_iff in Hc. by rewrite Hc, IH.
Qed.

Lemma RANDOM_SUFFIX_letters w : all_chars tr_set (RANDOM_SUFFIX w) = true.
Proof.
  rewrite RANDOM_SUFFIX_draw. apply all_chars_of_list, Forall_take, draw_letters.
Qed.

Lemma PROJECT_NAME_no_space w :
  all_chars (fun c => negb (Ascii.eqb c space)) (PROJECT_NAME w) = true.
Proof.
  unfold PROJECT_NAME. rewrite all_chars_app. apply andb_true_intro. split; [reflexivity|].
  eapply all_chars_impl; [|apply RANDOM_SUFFIX_letters].
  intros c Hc. by rewrite tr_set_not_space.
Qed.

Lemma PROJECT_NAME_no_dash w :
  all_chars (fun c => negb (Ascii.eqb c "-")) (PROJECT_NAME w) = true.
Proof.
  unfold PROJECT_NAME. rewrite all_chars_app. apply andb_true_intro. split; [reflexivity|].
  eapply all_chars_impl; [|apply RANDOM_SUFFIX_letters].
  intros c Hc. by rewrite tr_set_not_dash.
Qed.

(** The rendered argument strings, cut at the separator before the project
    value: five entries continue with a space and [--local], [TM4] does not
    have the space. *)
Lemma load_args w :
  List.map args (apps (load w))
  = [ front "M1" "cuda:2" +:+ String space (project_value w +:+ String space "--local");
      front "M2" "cuda:3" +:+ String space (project_value w +:+ String space "--local");
      front "M3" "cuda:4" +:+ String space (project_value w +:+ String space "--local");
      front "M4" "cuda:5" +:+ String space (project_value w +:+ "--local");
      front "M5" "cuda:6" +:+ String space (project_value w +:+ String space "--local");
      front "V1" "cuda:1" +:+ String space (project_value w +:+ String space "--local") ].
Proof.
  unfold project_value, front, PROJECT_NAME. rewrite !append_assoc. reflexivity.
Qed.

Lemma project_value_no_space w :
  all_chars (fun c => negb (Ascii.eqb c space)) (project_value w) = true.
Proof.
  unfold project_value. rewrite !all_chars_app, PROJECT_NAME_no_space. reflexivity.
Qed.

(** Words of an argument string that has the separator after the project value. *)
Lemma words_spaced hotkey device w :
  words (front hotkey device +:+ String space (project_value w +:+ String space "--local"))
  = (words (front hotkey device) ++ [project_value w; "--local"])%list.
Proof.
  rewrite !words_app_space. f_equal.
  by rewrite words_nospace by (apply project_value_no_space || reflexivity).
Qed.

(** Words of an argument string that lacks it. *)
Lemma words_glued hotkey device w :
  words (front hotkey device +:+ String space (project_value w +:+ "--local"))
  = (words (front hotkey device) ++ [project_value w +:+ "--local"])%list.
Proof.
  rewrite !words_app_space. f_equal.
  apply words_nospace; [|reflexivity].
  by rewrite all_chars_app, project_value_no_space.
Qed.

Lemma glued_flag_project_value w : glued_flag (project_value w) = false.
Proof.
  unfold project_value. simpl.
  by rewrite contains_double_dash_skip by apply PROJECT_NAME_no_dash.
Qed.

Lemma glued_flag_project_value_local w :
  glued_flag (project_value w +:+ "--local") = true.
Proof.
  unfold project_value. simpl. rewrite append_assoc.
  by rewrite contains_double_dash_skip by apply PROJECT_NAME_no_dash.
Qed.

Lemma well_spaced_spaced hotkey device w :
  well_spaced (front hotkey device) = true ->
  well_spaced (front hotkey device +:+ String space (project_value w +:+ String space "--local"))
  = true.
Proof.
  unfold well_spaced. rewrite words_spaced, forallb_app. intros ->.
  cbn [forallb]. by rewrite glued_flag_project_value.
Qed.

Lemma well_spaced_glued hotkey device w :
  well_spaced (front hotkey device +:+ String space (project_value w +:+ "--local"))
  = false.
Proof.
  unfold well_spaced. rewrite words_glued, forallb_app.
  cbn [forallb]. rewrite glued_flag_project_value_local. apply andb_false_r.
Qed.


(** The entries of a role are named prefix 1, prefix 2, ... *)
Lemma role_names_load r w :
  role_names r (load w) = List.map (ProcessName r) (seq 1 (role_count r (load w))).
Proof.
  unfold role_count, role_names. rewrite load_names. destruct r; vm_compute; reflexivity.
Qed.

(** The counts of the shipped configuration: five miners, one validator, no
    aggregator. *)
Lemma role_count_load w :
  List.map (fun r => role_count r (load w)) [miner; validator; aggregator] = [5; 1; 0].
Proof. reflexivity. Qed.


(** C7: the names of the entries are pairwise different; for every role the
    entries carrying its prefix are named prefix 1, prefix 2, ... up to the
    number of such entries; and every entry of the load is one of them. *)
Theorem C7_names_unique_contiguous (w : World) :
  NoDup (List.map name (apps (load w))) /\
  (forall r : Role,
      role_names r (load w)
      = List.map (ProcessName r) (seq 1 (role_count r (load w)))) /\
  Forall (fun a => exists (r : Role) (i : nat),
                     name a = ProcessName r i /\ 1 <= i <= role_count r (load w))
         (apps (load w)).
Proof.
  assert (forall r, role_names r (load w)
                    = List.filter (String.prefix (Prefix r))
                        ["TM1"; "TM2"; "TM3"; "TM4"; "TM5"; "TV1"]) as Hnames.
  { intros r. unfold role_names. by rewrite load_names. }
  split; [|split].
  - rewrite load_names. apply NoDup_ListNoDup.
    apply (NoDup_nodup string_dec ["TM1"; "TM2"; "TM3"; "TM4"; "TM5"; "TV1"]).
  - intros r. apply role_names_load.
  - apply (Forall_fmap name
             (fun n => exists (r : Role) (i : nat),
                         n = ProcessName r i /\ 1 <= i <= role_count r (load w))).
    change (name <$> apps (load w)) with (List.map name (apps (load w))).
    rewrite load_names. unfold role_count.
    repeat (apply Forall_cons_2; [|]); [..|apply Forall_nil_2].
    + exists miner, 1. rewrite Hnames. split; [reflexivity | vm_compute; lia].
    + exists miner, 2. rewrite Hnames. split; [reflexivity | vm_compute; lia].
    + exists miner, 3. rewrite Hnames. split; [reflexivity | vm_compute; lia].
    + exists miner, 4. rewrite Hnames. split; [reflexivity | vm_compute; lia].
    + exists miner, 5. rewrite Hnames. split; [reflexivity | vm_compute; lia].
    + exists validator, 1. rewrite Hnames. split; [reflexivity | vm_compute; lia].
Qed.

End EcosystemFacts.

(** * Properties of the restart tasks *)

Module RestartFacts.
Import Restart Scenarios.

Lemma range_from_one n : range 1 (n + 1) = seq 1 n.
Proof. unfold range. f_equal. lia. Qed.

(** A loop over [1..n] guarded by [n > 0] runs the action once per index. *)
Lemma run_loop_indices n (action : nat -> ShellRun) :
  run_loop (range 1 (n + 1)) (fun _ => (0 <? n)%nat) action
  = List.map action (seq 1 n).
Proof.
  rewrite range_from_one. unfold run_loop. destruct n as [|n]; [reflexivity|].
  change (0 <? S n)%nat with true. generalize (seq 1 (S n)). intros l.
  induction l as [|x l IH]; [reflexivity|]. simpl. by rewrite IH.
Qed.

Lemma restart_runs r v N :
  count r v = Some N -> restart r v = Ok (List.map (action r v) (seq 1 N)).
Proof.
  destruct r; cbn [count restart]; unfold restart_miner, restart_validator,
    restart_aggregator.
  - destruct (miner_hotkeys v) as [hk|]; [|discriminate].
    intros [= <-]. cbn [lookup_var]. by rewrite run_loop_indices.
  - destruct (validator_hotkeys v) as [hk|]; [|discriminate].
    intros [= <-]. cbn [lookup_var]. by rewrite run_loop_indices.
  - intros [= <-]. by rewrite run_loop_indices.
Qed.

(** An [Ok] result comes from a defined count. *)
Lemma restart_ok_count r v runs :
  restart r v = Ok runs -> exists N, count r v = Some N.
Proof.
  destruct r; cbn [count restart]; unfold restart_miner, restart_validator.
  - destruct (miner_hotkeys v); [eauto | discriminate].
  - destruct (validator_hotkeys v); [eauto | discriminate].
  - eauto.
Qed.

(** C1: for each role with supplied count [N], the task succeeds and runs
    exactly [N] restart commands, for the indices 1, 2, ..., [N] in this
    order; with [N = 0] it runs none and does not fail. *)
Theorem C1_restart_count (r : Role) (v : Vars) (N : nat) :
  count r v = Some N ->
  exists runs : list ShellRun,
    restart r v = Ok runs /\
    length runs = N /\
    List.map item runs = seq 1 N /\
    (N = 0 -> runs = []).
Proof.
  intros HN. exists (List.map (action r v) (seq 1 N)).
  split; [by apply restart_runs|]. split; [|split].
  - by rewrite length_map, length_seq.
  - rewrite List.map_map. apply List.map_id.
  - by intros ->.
Qed.

(** Five miners: commands for the indices 1 to 5, in order. *)
Lemma C1_restart_count_witness :
  exists runs : list ShellRun,
    restart miner example_vars = Ok runs /\
    length runs = 5 /\
    List.map item runs = seq 1 5 /\
    (5 = 0 -> runs = []).
Proof. apply (C1_restart_count miner example_vars 5). reflexivity. Defined.

(** The scenarios of the specification. *)
Example five_miners :
  (fun res => match res with
              | Ok runs => Some (List.map cmd runs)
              | Failed _ => None
              end) (restart miner example_vars)
  = Some (List.map (fun n => "pm2 restart ecosystem.config.js --only " +:+ dq +:+ n +:+ dq)
            ["TM1"; "TM2"; "TM3"; "TM4"; "TM5"]).
Proof. vm_compute. reflexivity. Qed.

Example no_aggregators : restart aggregator example_vars = Ok [].
Proof. reflexivity. Qed.

(** C2: every command run for role [r] and loop index [i] is [pm2] given the
    directive [restart ecosystem.config.js --only "<name>"] where the name is
    the role prefix followed by [i] (TM, TV, TA for miner, validator,
    aggregator), and it runs in the directory [templar_path]. *)
Theorem C2_restart_directive_form (r : Role) (v : Vars) (runs : list ShellRun) :
  restart r v = Ok runs ->
  (Prefix miner = "TM" /\ Prefix validator = "TV" /\ Prefix aggregator = "TA") /\
  Forall (fun d =>
            cmd d = "pm2 " +:+ restart_directive "ecosystem.config.js"
                                 (ProcessName r (item d)) /\
            chdir d = templar_path v)
         runs.
Proof.
  intros Hruns. split; [done|].
  destruct (restart_ok_count r v runs Hruns) as [N HN].
  rewrite (restart_runs r v N HN) in Hruns. injection Hruns as <-.
  apply Forall_forall. intros d Hd.
  apply list_elem_of_In, in_map_iff in Hd as (i & <- & _).
  split; [|reflexivity]. cbn [cmd item action].
  unfold restart_directive, ProcessName. by destruct r.
Qed.

Lemma C2_restart_directive_form_witness :
  (Prefix miner = "TM" /\ Prefix validator = "TV" /\ Prefix aggregator = "TA") /\
  Forall (fun d =>
            cmd d = "pm2 " +:+ restart_directive "ecosystem.config.js"
                                 (ProcessName validator (item d)) /\
            chdir d = templar_path example_vars)
         [mkShellRun 1 ("pm2 restart ecosystem.config.js --only " +:+ dq +:+ "TV1" +:+ dq)
            "/opt/templar"].
Proof.
  apply (C2_restart_directive_form validator example_vars). reflexivity.
Defined.

End RestartFacts.

(** * Properties of the interactive launcher *)

Module DockerRunFacts.
Import DockerRun Scenarios TextFacts.

(** *** [read] consumes input *)

Lemma read_line_consumes n : forall input,
  String.length input <= n ->
  String.length (snd (read_line input)) <= String.length input /\
  (input <> "" -> String.length (snd (read_line input)) < String.length input).
Proof.
  induction n as [|n IH]; intros input Hn.
  - destruct input; [|simpl in Hn; lia]. simpl. split; [lia | congruence].
  - destruct input as [|c rest]; [simpl; split; [lia | congruence]|].
    simpl in Hn. cbn [read_line].
    destruct (Ascii.eqb c backslash).
    + destruct rest as [|c' rest']; [simpl; split; [lia | intros _; lia]|].
      simpl in Hn. destruct (IH rest' ltac:(lia)) as [Hle _].
      destruct (Ascii.eqb c' newline).
      * simpl. split; [lia | intros _; lia].
      * destruct (read_line rest') as [l r]. simpl in *. split; [lia | intros _; lia].
    + destruct (IH rest ltac:(lia)) as [Hle _].
      destruct (Ascii.eqb c newline); [simpl; split; [lia | intros _; lia]|].
      destruct (Ascii.eqb c nul); [simpl; split; [lia | intros _; lia]|].
      destruct (read_line rest) as [l r]. simpl in *. split; [lia | intros _; lia].
Qed.

Lemma read_consumes input response rest :
  read input = (response, rest) ->
  String.length rest <= String.length input /\
  (input <> "" -> String.length rest < String.length input).
Proof.
  unfold read. pose proof (read_line_consumes (String.length input) input (le_n _)) as H.
  destruct (read_line input) as [l r]. intros [= _ <-]. exact H.
Qed.

Lemma read_eof : read "" = ("", "").
Proof. reflexivity. Qed.

(** *** The loop of [prompt_required] *)

(** At end of input the loop never ends, whatever the fuel. *)
Lemma prompt_required_loop_eof fuel prompt :
  prompt_required_loop fuel prompt "" = Hangs.
Proof.
  induction fuel as [|fuel IH]; [reflexivity|].
  cbn [prompt_required_loop]. rewrite read_eof. cbn [nonempty]. by rewrite IH.
Qed.

(** Fuel beyond one iteration per character changes nothing. *)
Lemma prompt_required_loop_enough n : forall stdin fuel prompt,
  String.length stdin <= n ->
  S (String.length stdin) <= fuel ->
  prompt_required_loop fuel prompt stdin = prompt_required prompt stdin.
Proof.
  unfold prompt_required.
  induction n as [|n IH]; intros stdin fuel prompt Hn Hfuel.
  - destruct stdin; [|simpl in Hn; lia]. by rewrite !prompt_required_loop_eof.
  - destruct (decide (stdin = "")) as [->|Hne];
      [by rewrite !prompt_required_loop_eof|].
    destruct fuel as [|fuel]; [lia|]. cbn [prompt_required_loop].
    destruct (read stdin) as [response rest] eqn:Hread.
    destruct (read_consumes _ _ _ Hread) as [_ Hlt]. specialize (Hlt Hne).
    destruct (nonempty response); [reflexivity|].
    rewrite (IH rest fuel prompt) by lia.
    by rewrite (IH rest (String.length stdin) prompt) by lia.
Qed.

(** The loop, one iteration at a time and without fuel: it ends on the first
    non-empty response, goes on after an empty one, and never ends once the
    input is exhausted. *)
Lemma prompt_required_unfold prompt stdin :
  prompt_required prompt stdin
  = let (response, rest) := read stdin in
    if nonempty response
    then Done (echo true (prompt +:+ ": ") +:+ echo false response, rest)
    else if decide (stdin = "") then Hangs
    else match prompt_required prompt rest with
         | Done (out, r) =>
             Done (echo true (prompt +:+ ": ")
                   +:+ echo false "This field is required" +:+ out, r)
         | Hangs => Hangs
         end.
Proof.
  unfold prompt_required at 1. cbn [prompt_required_loop].
  destruct (read stdin) as [response rest] eqn:Hread.
  destruct (nonempty response); [reflexivity|].
  destruct (decide (stdin = "")) as [->|Hne].
  - rewrite read_eof in Hread. injection Hread as <- <-.
    by rewrite prompt_required_loop_eof.
  - destruct (read_consumes _ _ _ Hread) as [_ Hlt]. specialize (Hlt Hne).
    by rewrite (prompt_required_loop_enough (String.length rest)) by lia.
Qed.

(** Whenever the function returns, the response it accepted is not empty,
    and what it wrote ends with the [echo] of that response. *)
Lemma prompt_required_loop_accepts fuel : forall prompt stdin out rest,
  prompt_required_loop fuel prompt stdin = Done (out, rest) ->
  exists shown response,
    nonempty response = true /\ out = shown +:+ echo false response.
Proof.
  induction fuel as [|fuel IH]; intros prompt stdin out rest; [discriminate|].
  cbn [prompt_required_loop].
  destruct (read stdin) as [response stdin'].
  destruct (nonempty response) eqn:Hresp.
  - intros [= <- <-]. eauto.
  - destruct (prompt_required_loop fuel prompt stdin') as [[out' rest']|] eqn:Hrec;
      [|discriminate].
    intros [= <- <-]. destruct (IH _ _ _ _ Hrec) as (shown & resp & Hne & ->).
    exists (echo true (prompt +:+ ": ") +:+ echo false "This field is required" +:+ shown), resp.
    split; [done|].
    by rewrite <- !append_assoc.
Qed.

(** A first line with an answer on it is accepted at once. *)
Lemma prompt_required_answer prompt stdin response rest :
  read stdin = (response, rest) ->
  nonempty response = true ->
  prompt_required prompt stdin
  = Done (echo true (prompt +:+ ": ") +:+ echo false response, rest).
Proof.
  intros Hread Hne. unfold prompt_required. cbn [prompt_required_loop].
  by rewrite Hread, Hne.
Qed.

(** *** The builtins on examples *)

Example read_strips_blanks :
  read (typed ["  my wallet  "; "next"]) = ("my wallet", typed ["next"]).
Proof. reflexivity. Qed.

Example read_at_end_of_input : read "partial" = ("partial", "").
Proof. reflexivity. Qed.

Example echo_swallows_option : echo false "-n" = "".
Proof. reflexivity. Qed.

Example prompt_required_reprompts :
  prompt_required "Enter wallet name" (typed [""; "   "; "alice"; "next"])
  = Done (typed ["Enter wallet name: This field is required";
                 "Enter wallet name: This field is required";
                 "Enter wallet name: alice"],
          typed ["next"]).
Proof. vm_compute. reflexivity. Qed.

Example prompt_required_never_ends :
  prompt_required "Enter wallet name" (typed [""; "   "]) = Hangs.
Proof. reflexivity. Qed.

(** *** What the prompt functions write *)

Lemma forallb_echo_flag_space a b :
  forallb echo_flag (list_ascii_of_string (a +:+ String space b)) = false.
Proof.
  induction a as [|c a IH]; [reflexivity|]. simpl. rewrite IH. apply andb_false_r.
Qed.

(** Text with a space in it is never taken for an option by [echo]. *)
Lemma is_echo_option_space a b : is_echo_option (a +:+ String space b) = false.
Proof.
  destruct a as [|c [|c' a]]; simpl.
  - by destruct b.
  - apply andb_false_r.
  - rewrite forallb_echo_flag_space. by rewrite !andb_false_r.
Qed.

Lemma echo_prompt_default prompt default :
  echo true (prompt +:+ " [" +:+ default +:+ "]: ")
  = prompt +:+ " [" +:+ default +:+ "]: ".
Proof.
  unfold echo.
  change (prompt +:+ " [" +:+ default +:+ "]: ")
    with (prompt +:+ String space ("[" +:+ default +:+ "]: ")).
  rewrite is_echo_option_space. apply append_nil_r.
Qed.

(** Whatever is typed, what [prompt_with_default] writes, and [$(...)]
    captures, starts with the prompt text. *)
Lemma prompt_with_default_output prompt default stdin :
  exists answer,
    fst (prompt_with_default prompt default stdin)
    = (prompt +:+ " [" +:+ default +:+ "]: ") +:+ answer.
Proof.
  unfold prompt_with_default. destruct (read stdin) as [response rest].
  rewrite echo_prompt_default. cbn [fst]. eauto.
Qed.

(** An optional prompt left blank. *)
Lemma prompt_with_default_blank prompt default rest :
  prompt_with_default prompt default (String newline rest)
  = ((prompt +:+ " [" +:+ default +:+ "]: ") +:+ echo false default, rest).
Proof.
  unfold prompt_with_default. rewrite echo_prompt_default. reflexivity.
Qed.

(** *** The environment of the compose command *)

Lemma environ_lookup words sh x :
  environ (invoke words sh) !! x
  = if decide (x ∈ exported sh) then vars sh !! x else None.
Proof.
  unfold invoke. cbn [environ]. rewrite map_lookup_filter.
  destruct (vars sh !! x) as [v|]; cbn; [|by case_decide].
  unfold guard. by destruct (decide (x ∈ exported sh)).
Qed.

(** The shell and the command at the end of a run that gets there. *)
Lemma run_done ambient input sh inv :
  run ambient input = Done (sh, inv) ->
  exists node_type wallet_name wallet_hotkey api_key network cuda_device debug,
    vars sh
    = <["COMPOSE_FILE" := "docker/compose." +:+ node_type +:+ ".yml"]>
        (<["DEBUG" := debug]>
           (<["CUDA_DEVICE" := cuda_device]>
              (<["NETWORK" := network]>
                 (<["WANDB_API_KEY" := api_key]>
                    (<["WALLET_HOTKEY" := wallet_hotkey]>
                       (<["WALLET_NAME" := wallet_name]>
                          (<["NODE_TYPE" := node_type]> ambient))))))) /\
    exported sh
    = dom ambient ∪ list_to_set ["WALLET_NAME"; "WALLET_HOTKEY"; "WANDB_API_KEY";
                                 "NETWORK"; "CUDA_DEVICE"; "DEBUG"] /\
    inv = invoke ["docker"; "compose"; "-f";
                  "docker/compose." +:+ node_type +:+ ".yml"; "up"; "-d"] sh /\
    exists answer,
      node_type = command_substitution
                    ("Enter node type (miner/validator) [miner]: " +:+ answer).
Proof.
  unfold run, docker_run, start, assign_prompt_with_default, assign_prompt_required.
  cbn [obind stdin vars exported].
  destruct (prompt_with_default_output "Enter node type (miner/validator)" "miner" input)
    as [answer Hanswer].
  destruct (prompt_with_default _ _ input) as [o1 r1]. cbn [obind stdin vars exported].
  destruct (prompt_required _ r1) as [[o2 r2]|]; [|discriminate]. cbn [obind stdin vars exported].
  destruct (prompt_required _ r2) as [[o3 r3]|]; [|discriminate]. cbn [obind stdin vars exported].
  destruct (prompt_required _ r3) as [[o4 r4]|]; [|discriminate]. cbn [obind stdin vars exported].
  destruct (prompt_with_default _ _ r4) as [o5 r5]. cbn [obind stdin vars exported].
  destruct (prompt_with_default _ _ r5) as [o6 r6]. cbn [obind stdin vars exported].
  destruct (prompt_with_default _ _ r6) as [o7 r7]. cbn [obind stdin vars exported].
  unfold export, assign, expand. cbn [stdin vars exported].
  rewrite lookup_insert_eq.
  do 6 (rewrite lookup_insert_ne by done). rewrite lookup_insert_eq.
  intros [= <- <-]. cbn [vars exported].
  exists (command_substitution o1), (command_substitution o2), (command_substitution o3),
    (command_substitution o4), (command_substitution o5), (command_substitution o6),
    (command_substitution o7).
  repeat split. exists answer. cbn [fst] in Hanswer. by rewrite Hanswer.
Qed.

Lemma node_type_environ ambient input sh inv :
  run ambient input = Done (sh, inv) ->
  environ inv !! "NODE_TYPE"
  = if decide ("NODE_TYPE" ∈ dom ambient) then vars sh !! "NODE_TYPE" else None.
Proof.
  intros (nt & wn & wh & ak & nw & cd & db & Hvars & Hexp & -> & _)%run_done.
  rewrite environ_lookup, Hexp.
  destruct (decide ("NODE_TYPE" ∈ dom ambient)) as [Hin|Hout].
  - rewrite decide_True; [done | by apply elem_of_union_l].
  - rewrite decide_False; [done|].
    rewrite elem_of_union, elem_of_list_to_set. intros [?|Hin]; [done|].
    by repeat (apply elem_of_cons in Hin as [?|Hin]; [done|]); apply not_elem_of_nil in Hin.
Qed.

(** C4, evaluated: the network prompt is answered with a bare RETURN; the
    variable NETWORK then holds the prompt text followed by the default, not
    the default [test] alone. *)
Theorem C4_blank_network_value :
  variable_after "NETWORK" (run ∅ blank_network) = Some "Enter network [test]: test".
Proof. vm_compute. reflexivity. Qed.

(** The required fields in the same run: each accepted value is the prompt
    text followed by the answer. *)
Example required_values :
  List.map (fun x => variable_after x (run ∅ blank_network))
    ["WALLET_NAME"; "WALLET_HOTKEY"; "WANDB_API_KEY"]
  = [Some "Enter wallet name: alice"; Some "Enter wallet hotkey: hk1";
     Some "Enter Weights & Biases API key: 0123abcd"].
Proof. vm_compute. reflexivity. Qed.

(** C10, evaluated: [validator] is typed at the node-type prompt; the compose
    file handed to [docker compose] has the prompt text in its name. *)
Theorem C10_compose_file_for_validator :
  command_after (run ∅ validator_answers)
  = Some ["docker"; "compose"; "-f";
          "docker/compose.Enter node type (miner/validator) [miner]: validator.yml";
          "up"; "-d"].
Proof. vm_compute. reflexivity. Qed.




End DockerRunFacts.

(** * Further properties of the configuration module *)

Module EcosystemMore.
Import Ecosystem Restart Descriptor Scenarios Shapes TextFacts EcosystemFacts.

Lemma tr_set_ascii c : tr_set c = true -> nat_of_ascii c < 128.
Proof.
  unfold tr_set, in_range. rewrite orb_true_iff, !andb_true_iff, !Nat.leb_le.
  change (nat_of_ascii "z") with 122. change (nat_of_ascii "9") with 57. lia.
Qed.

Lemma fold_go_Forall (P : ascii -> Prop) width : forall col input,
  P newline -> Forall P input -> Forall P (fold_go width col input).
Proof.
  intros col input Hnl Hin. revert col.
  induction Hin as [|c input Hc _ IH]; intros col; cbn [fold_go]; [constructor|].
  destruct (Ascii.eqb c newline); [by constructor|].
  destruct (width <? col + 1)%nat; repeat constructor; auto.
Qed.

Lemma head_n_Forall (P : ascii -> Prop) : forall n input,
  Forall P input -> Forall P (head_n n input).
Proof.
  intros n input Hin. revert n.
  induction Hin as [|c input Hc _ IH]; intros [|n]; cbn [head_n]; try constructor.
  destruct (Ascii.eqb c newline); constructor; auto.
Qed.

(** X1: whatever bytes the random device delivers, the suffix is the first
    four letters or digits among them, in their order (fewer only if fewer
    arrive), and everything the pipeline hands to [toString] is ASCII. *)
Theorem suffix_first_four_accepted (w : World) :
  RANDOM_SUFFIX w
  = string_of_list_ascii (take 4 (List.filter tr_set (dev_urandom w))) /\
  String.length (RANDOM_SUFFIX w)
  = Nat.min 4 (length (List.filter tr_set (dev_urandom w))) /\
  Forall (fun c => nat_of_ascii c < 128) (suffix_pipeline (dev_urandom w)).
Proof.
  split; [apply RANDOM_SUFFIX_draw|]. split.
  - rewrite RANDOM_SUFFIX_draw, string_of_list_ascii_length, length_take.
    reflexivity.
  - unfold suffix_pipeline, fold_w. apply head_n_Forall, fold_go_Forall.
    + vm_compute. lia.
    + eapply Forall_impl; [apply (draw_letters w)|]. apply tr_set_ascii.
Qed.

(** X2: in every entry's environment PROJECT_NAME is the generated
    identifier, whatever the process or [.env] had under that key; any other
    key has the value of the process if the process had one, and else the
    value of [.env], if any. *)
Theorem env_precedence (w : World) :
  Forall (fun a => forall k : string,
            env a !! k
            = if decide (k = "PROJECT_NAME") then Some (PROJECT_NAME w)
              else match process_env w !! k with
                   | Some v => Some v
                   | None => dotenv_file w !! k
                   end)
         (apps (load w)).
Proof.
  apply (Forall_fmap env
           (fun e => forall k : string,
              e !! k
              = if decide (k = "PROJECT_NAME") then Some (PROJECT_NAME w)
                else match process_env w !! k with
                     | Some v => Some v
                     | None => dotenv_file w !! k
                     end)).
  change (env <$> apps (load w)) with (List.map env (apps (load w))).
  rewrite load_envs. apply Forall_replicate. intros k.
  case_decide as Hk.
  - subst k. apply lookup_insert_eq.
  - rewrite lookup_insert_ne by done. rewrite lookup_union.
    by destruct (process_env w !! k), (dotenv_file w !! k).
Qed.

(** X3: loading the file again changes [process.env] no further, runs the
    suffix command once more, and gives every entry an environment that
    agrees with the one of the first load on every key but PROJECT_NAME. *)
Theorem reload_environment (w : World) (bytes : list ascii) :
  let w1 := snd (ecosystem_config w) in
  let w2 := snd (ecosystem_config (reload w bytes)) in
  process_env w2 = process_env w1 /\
  execs w2 = (execs w ++ [random_suffix_command; random_suffix_command])%list /\
  Forall (fun a2 =>
            Forall (fun a1 => forall k, k <> "PROJECT_NAME" -> env a2 !! k = env a1 !! k)
                   (apps (load w)))
         (apps (load (reload w bytes))).
Proof.
  cbv zeta. rewrite !load_world. unfold reload. rewrite load_world.
  cbn [process_env dotenv_file execs dev_urandom].
  assert ((process_env w ∪ dotenv_file w) ∪ dotenv_file w
          = process_env w ∪ dotenv_file w) as Hidem.
  { by rewrite <- (assoc_L (∪)), (idemp_L (∪)). }
  split; [exact Hidem|]. split; [by rewrite <- app_assoc|].
  apply (Forall_fmap env
           (fun e2 => Forall (fun a1 => forall k, k <> "PROJECT_NAME" ->
                                          e2 !! k = env a1 !! k) (apps (load w)))).
  match goal with
  | |- Forall _ (env <$> apps (load ?w')) =>
      change (env <$> apps (load w')) with (List.map env (apps (load w')));
      rewrite (load_envs w')
  end.
  apply Forall_replicate.
  apply (Forall_fmap env (fun e1 => forall k, k <> "PROJECT_NAME" -> _ !! k = e1 !! k)).
  change (env <$> apps (load w)) with (List.map env (apps (load w))).
  rewrite load_envs. apply Forall_replicate. intros k Hk.
  cbn [process_env dotenv_file]. rewrite !lookup_insert_ne by done.
  by rewrite Hidem.
Qed.

(** Name, environment and arguments of the entries, side by side. *)
Lemma load_view w :
  List.map (fun a => (name a, (env a, args a))) (apps (load w))
  = zip ["TM1"; "TM2"; "TM3"; "TM4"; "TM5"; "TV1"]
      (zip (replicate 6 (<["PROJECT_NAME" := PROJECT_NAME w]>
                           (process_env w ∪ dotenv_file w)))
         [ front "M1" "cuda:2" +:+ String space (project_value w +:+ String space "--local");
           front "M2" "cuda:3" +:+ String space (project_value w +:+ String space "--local");
           front "M3" "cuda:4" +:+ String space (project_value w +:+ String space "--local");
           front "M4" "cuda:5" +:+ String space (project_value w +:+ "--local");
           front "M5" "cuda:6" +:+ String space (project_value w +:+ String space "--local");
           front "V1" "cuda:1" +:+ String space (project_value w +:+ String space "--local") ]).
Proof.
  rewrite <- (load_names w), <- (load_envs w), <- (load_args w). reflexivity.
Qed.

(** X4: every entry passes after [--project] the identifier that is in its
    own environment, in double quotes; in [TM4] the flag [--local] is
    attached to it. *)
Theorem project_argument_matches_environment (w : World) :
  Forall (fun a =>
            exists v : string,
              env a !! "PROJECT_NAME" = Some v /\
              flag_value "--project" (words (args a))
              = Some (dq +:+ v +:+ dq
                      +:+ (if String.eqb (name a) "TM4" then "--local" else "")))
         (apps (load w)).
Proof.
  apply (Forall_fmap (fun a => (name a, (env a, args a)))
           (fun p => exists v : string,
                       p.2.1 !! "PROJECT_NAME" = Some v /\
                       flag_value "--project" (words p.2.2)
                       = Some (dq +:+ v +:+ dq
                               +:+ (if String.eqb p.1 "TM4" then "--local" else "")))).
  change ((fun a => (name a, (env a, args a))) <$> apps (load w))
    with (List.map (fun a => (name a, (env a, args a))) (apps (load w))).
  rewrite load_view. cbn [zip zip_with replicate].
  repeat (apply Forall_cons_2; [|]); [..|apply Forall_nil_2];
    exists (PROJECT_NAME w); cbn [fst snd];
    (split; [apply lookup_insert_eq|]);
    rewrite ?words_spaced, ?words_glued;
    cbn [String.eqb Ascii.eqb Bool.eqb]; unfold project_value;
    rewrite ?append_assoc, ?append_nil_r;
    generalize (PROJECT_NAME w); intros value; vm_compute; reflexivity.
Qed.

(** Name and words of the arguments of the entries. *)
Lemma load_words w :
  List.map (fun a => (name a, words (args a))) (apps (load w))
  = [ ("TM1", (words (front "M1" "cuda:2") ++ [project_value w; "--local"])%list);
      ("TM2", (words (front "M2" "cuda:3") ++ [project_value w; "--local"])%list);
      ("TM3", (words (front "M3" "cuda:4") ++ [project_value w; "--local"])%list);
      ("TM4", (words (front "M4" "cuda:5") ++ [project_value w +:+ "--local"])%list);
      ("TM5", (words (front "M5" "cuda:6") ++ [project_value w; "--local"])%list);
      ("TV1", (words (front "V1" "cuda:1") ++ [project_value w; "--local"])%list) ].
Proof.
  transitivity (List.map (fun p => (p.1, words p.2.2))
                  (List.map (fun a => (name a, (env a, args a))) (apps (load w)))).
  { by rewrite List.map_map. }
  rewrite load_view. cbn [zip zip_with replicate List.map fst snd].
  by rewrite !words_spaced, words_glued.
Qed.

Lemma load_flag flag w :
  List.map (fun a => flag_value flag (words (args a))) (apps (load w))
  = List.map (fun p => flag_value flag p.2)
      (List.map (fun a => (name a, words (args a))) (apps (load w))).
Proof. by rewrite List.map_map. Qed.

(** X5: every entry's [--wallet.hotkey] is its name without the leading
    letter, every entry names a device, and no two entries name the same
    device or the same hotkey. *)
Theorem hotkeys_and_devices (w : World) :
  Forall (fun a =>
            flag_value "--wallet.hotkey" (words (args a))
            = Some (match name a with String _ rest => rest | "" => "" end) /\
            is_Some (flag_value "--device" (words (args a))))
         (apps (load w)) /\
  NoDup (List.map (fun a => flag_value "--device" (words (args a))) (apps (load w))) /\
  NoDup (List.map (fun a => flag_value "--wallet.hotkey" (words (args a))) (apps (load w))).
Proof.
  split; [|split].
  - apply (Forall_fmap (fun a => (name a, words (args a)))
             (fun p => flag_value "--wallet.hotkey" p.2
                       = Some (match p.1 with String _ rest => rest | "" => "" end) /\
                       is_Some (flag_value "--device" p.2))).
    change ((fun a => (name a, words (args a))) <$> apps (load w))
      with (List.map (fun a => (name a, words (args a))) (apps (load w))).
    rewrite load_words. generalize (project_value w). intros value.
    repeat (apply Forall_cons_2; [|]); [..|apply Forall_nil_2];
      (split; [vm_compute; reflexivity | eexists; vm_compute; reflexivity]).
  - rewrite load_flag, load_words. generalize (project_value w). intros value.
    vm_compute. apply NoDup_ListNoDup.
    apply (NoDup_nodup (option_eq_dec (dec := string_dec))
             [Some "cuda:2"; Some "cuda:3"; Some "cuda:4"; Some "cuda:5";
              Some "cuda:6"; Some "cuda:1"]).
  - rewrite load_flag, load_words. generalize (project_value w). intros value.
    vm_compute. apply NoDup_ListNoDup.
    apply (NoDup_nodup (option_eq_dec (dec := string_dec))
             [Some "M1"; Some "M2"; Some "M3"; Some "M4"; Some "M5"; Some "V1"]).
Qed.

End EcosystemMore.

(** * Properties of the task file as a whole *)

Module PlaybookFacts.
Import Ecosystem Restart Descriptor Scenarios Shapes Playbook TextFacts.
Import EcosystemFacts RestartFacts.

Lemma append_length s1 s2 :
  String.length (s1 +:+ s2) = String.length s1 + String.length s2.
Proof.
  induction s1 as [|c s1 IH]; [reflexivity|].
  change (S (String.length (s1 +:+ s2)) = S (String.length s1 + String.length s2)).
  by rewrite IH.
Qed.

Lemma append_inj_r t : forall s1 s2, s1 +:+ t = s2 +:+ t -> s1 = s2.
Proof.
  induction s1 as [|c s1 IH]; intros [|c' s2] H.
  - reflexivity.
  - apply (f_equal String.length) in H. rewrite !append_length in H.
    cbn [String.length] in H. lia.
  - apply (f_equal String.length) in H. rewrite !append_length in H.
    cbn [String.length] in H. lia.
  - change (String c (s1 +:+ t) = String c' (s2 +:+ t)) in H.
    injection H as -> H. f_equal. by apply IH.
Qed.

Lemma ProcessName_inj r r' i i' :
  ProcessName r i = ProcessName r' i' -> r = r' /\ i = i'.
Proof.
  unfold ProcessName. intros H.
  assert (r = r') as <-.
  { apply (f_equal (String.get 1)) in H.
    destruct r, r'; first [reflexivity | vm_compute in H; discriminate H]. }
  split; [reflexivity|].
  apply (String.app_inj (Prefix r)) in H. by apply pretty_nat_inj in H.
Qed.

Lemma action_cmd_inj r r' v i i' :
  cmd (action r v i) = cmd (action r' v i') -> r = r' /\ i = i'.
Proof.
  cbn [cmd action]. intros H.
  apply (String.app_inj "pm2 restart ecosystem.config.js --only ") in H.
  apply (String.app_inj dq) in H.
  rewrite <- !(append_assoc (Prefix _)) in H.
  apply append_inj_r in H. by apply ProcessName_inj.
Qed.

Lemma task_commands_NoDup r v n : NoDup (task_commands r v n).
Proof.
  unfold task_commands. apply NoDup_fmap_2_strong; [|apply NoDup_seq].
  intros i i' _ _ H. by apply action_cmd_inj in H as [_ ?].
Qed.

Lemma task_commands_disjoint r r' v n n' c :
  r <> r' -> c ∈ task_commands r v n -> c ∈ task_commands r' v n' -> False.
Proof.
  unfold task_commands. intros Hne Hc Hc'.
  apply list_elem_of_In, in_map_iff in Hc as (i & <- & _).
  apply list_elem_of_In, in_map_iff in Hc' as (i' & Heq & _).
  apply action_cmd_inj in Heq as [? _]. congruence.
Qed.

Lemma all_commands_NoDup v a b c :
  NoDup (task_commands validator v a ++ task_commands aggregator v b
         ++ task_commands miner v c)%list.
Proof.
  apply NoDup_app. split; [apply task_commands_NoDup|]. split.
  - intros x Hx [Hx'|Hx']%elem_of_app.
    + by apply (task_commands_disjoint validator aggregator v a b x).
    + by apply (task_commands_disjoint validator miner v a c x).
  - apply NoDup_app. split; [apply task_commands_NoDup|]. split.
    + intros x Hx Hx'. by apply (task_commands_disjoint aggregator miner v b c x).
    + apply task_commands_NoDup.
Qed.

Lemma commands_and_then o1 o2 :
  failure o1 = None ->
  commands (and_then o1 o2) = (commands o1 ++ commands o2)%list.
Proof.
  intros H. unfold and_then, commands. rewrite H. cbn [events]. apply omap_app.
Qed.

Lemma failure_and_then o1 o2 :
  failure (and_then o1 o2)
  = match failure o1 with Some msg => Some msg | None => failure o2 end.
Proof. unfold and_then. destruct o1 as [e [m|]]; reflexivity. Qed.

Lemma commands_shell_task r v N :
  count r v = Some N ->
  failure (shell_task (restart r v)) = None /\
  commands (shell_task (restart r v)) = task_commands r v N.
Proof.
  intros HN. rewrite (restart_runs r v N HN). cbn [shell_task failure]. split; [done|].
  unfold commands, task_commands. cbn [events].
  induction (seq 1 N) as [|i l IH]; [reflexivity|]. cbn. by rewrite IH.
Qed.

Lemma shell_task_undefined r v :
  count r v = None ->
  exists msg, shell_task (restart r v) = mkOutcome [] (Some msg).
Proof.
  destruct r; cbn [count restart]; unfold restart_miner, restart_validator.
  - destruct (miner_hotkeys v); [discriminate|]. intros _. cbn. eauto.
  - destruct (validator_hotkeys v); [discriminate|]. intros _. cbn. eauto.
  - discriminate.
Qed.

Section Play.
Context {value : Type} (bool_filter : value -> option bool).

Lemma includes_run (x : value) :
  let o := and_then (include_tasks "local.yml" (when_local bool_filter (Some x)))
             (include_tasks "remote.yml" (when_remote bool_filter (Some x))) in
  failure o = None /\
  events o = [Included (if truthy (bool_filter x) then "remote.yml" else "local.yml")].
Proof.
  cbv zeta. unfold when_local, when_remote. cbn [lookup_var].
  by destruct (truthy (bool_filter x)).
Qed.

Lemma and_then_assoc o1 o2 o3 :
  and_then o1 (and_then o2 o3) = and_then (and_then o1 o2) o3.
Proof.
  unfold and_then. destruct o1 as [e1 [m1|]], o2 as [e2 [m2|]]; cbn; try reflexivity.
  by rewrite app_assoc.
Qed.

Lemma tasks_split (rm : option value) (v : Vars) :
  tasks bool_filter rm v
  = and_then (and_then (include_tasks "local.yml" (when_local bool_filter rm))
                (include_tasks "remote.yml" (when_remote bool_filter rm)))
      (and_then (shell_task (restart validator v))
         (and_then (shell_task (restart aggregator v))
            (shell_task (restart miner v)))).
Proof. unfold tasks. by rewrite and_then_assoc. Qed.

(** The commands of a run, whatever is defined: those of the validator task,
    then of the aggregator task, then of the miner task, each for the
    indices 1 to some number (none for a task that was not reached). *)
Lemma commands_shape (rm : option value) (v : Vars) :
  exists a b c,
    commands (tasks bool_filter rm v)
    = (task_commands validator v a ++ task_commands aggregator v b
       ++ task_commands miner v c)%list.
Proof.
  rewrite tasks_split. destruct rm as [x|].
  2:{ exists 0, 0, 0. reflexivity. }
  destruct (includes_run x) as [Hf He]. cbv zeta in Hf, He.
  rewrite commands_and_then by done.
  assert (commands (and_then (include_tasks "local.yml" (when_local bool_filter (Some x)))
                      (include_tasks "remote.yml" (when_remote bool_filter (Some x))))
          = []) as -> by (unfold commands; by rewrite He).
  cbn [app].
  destruct (count validator v) as [a|] eqn:Ha.
  2:{ destruct (shell_task_undefined validator v Ha) as [msg ->].
      exists 0, 0, 0. reflexivity. }
  destruct (commands_shell_task validator v a Ha) as [Hfa Hca].
  rewrite commands_and_then, Hca by done.
  destruct (commands_shell_task aggregator v _ eq_refl) as [Hfb Hcb].
  rewrite commands_and_then, Hcb by done.
  destruct (count miner v) as [c|] eqn:Hc.
  - destruct (commands_shell_task miner v c Hc) as [_ Hcc]. rewrite Hcc. eauto.
  - destruct (shell_task_undefined miner v Hc) as [msg ->].
    exists a, (length (default (aggregator_hotkeys v) [])), 0. reflexivity.
Qed.




(** X9: no run issues the same restart command twice. *)
Theorem play_commands_distinct (rm : option value) (v : Vars) :
  NoDup (commands (tasks bool_filter rm v)).
Proof.
  destruct (commands_shape rm v) as (a & b & c & ->). apply all_commands_NoDup.
Qed.

End Play.



Example partial_restart_commands :
  commands (tasks (Some : bool -> option bool) (Some false)
              (mkVars "/opt/templar" (Some ["v1"; "v2"]) (Some ["a1"]) None))
  = List.map (fun n => "pm2 restart ecosystem.config.js --only " +:+ dq +:+ n +:+ dq)
      ["TV1"; "TV2"; "TA1"].
Proof. vm_compute. reflexivity. Qed.

(** *** The restart tasks and the entries of the configuration *)


(** Which process names exist in the configuration. *)
Lemma ProcessName_in_load r i w :
  1 <= i ->
  ProcessName r i ∈ List.map name (apps (load w)) <-> i <= role_count r (load w).
Proof.
  intros Hi. rewrite load_names.
  change ["TM1"; "TM2"; "TM3"; "TM4"; "TM5"; "TV1"]
    with [ProcessName miner 1; ProcessName miner 2; ProcessName miner 3;
          ProcessName miner 4; ProcessName miner 5; ProcessName validator 1].
  rewrite !elem_of_cons, elem_of_nil. split.
  - intros H.
    repeat (destruct H as [H|H];
            [apply ProcessName_inj in H as [-> ->]; vm_compute; lia|]).
    destruct H.
  - intros H. destruct r.
    + change (role_count miner (load w)) with 5 in H.
      assert (i = 1 \/ i = 2 \/ i = 3 \/ i = 4 \/ i = 5) as Hc by lia.
      intuition (subst; auto).
    + change (role_count validator (load w)) with 1 in H.
      assert (i = 1) as -> by lia. auto 10.
    + change (role_count aggregator (load w)) with 0 in H. lia.
Qed.



End PlaybookFacts.

(** * Further properties of the launcher *)

Module LauncherFacts.
Import DockerRun Descriptor Scenarios Shapes Launcher TextFacts.
Import EcosystemFacts DockerRunFacts.

(** *** Strings as lists of characters *)

Lemma list_of_append s1 s2 :
  list_ascii_of_string (s1 +:+ s2)
  = (list_ascii_of_string s1 ++ list_ascii_of_string s2)%list.
Proof.
  induction s1 as [|c s1 IH]; [reflexivity|].
  change (c :: list_ascii_of_string (s1 +:+ s2)
          = c :: (list_ascii_of_string s1 ++ list_ascii_of_string s2)%list).
  by rewrite IH.
Qed.

Lemma all_chars_Forall p s :
  all_chars p s = true <-> Forall (fun c => p c = true) (list_ascii_of_string s).
Proof.
  induction s as [|c s IH]; cbn [all_chars list_ascii_of_string].
  - split; [constructor | reflexivity].
  - rewrite andb_true_iff, Forall_cons, IH. reflexivity.
Qed.

Lemma blank_plain c : blank c = true -> plain_char c = true.
Proof.
  unfold blank, plain_char. intros [H|H]%orb_prop; apply Ascii.eqb_eq in H; by subst.
Qed.

Lemma plain_char_tests c :
  plain_char c = true ->
  Ascii.eqb c backslash = false /\ Ascii.eqb c newline = false /\ Ascii.eqb c nul = false.
Proof.
  unfold plain_char. rewrite !andb_true_iff, !negb_true_iff. tauto.
Qed.

(** *** [read] on plain lines *)

Lemma read_line_plain s rest :
  plain s = true ->
  read_line (s +:+ String newline rest)
  = (List.map unquoted (list_ascii_of_string s), rest).
Proof.
  unfold plain. induction s as [|c s IH]; [reflexivity|].
  cbn [all_chars]. intros [Hc Hs]%andb_prop.
  destruct (plain_char_tests c Hc) as (Hb & Hn & Hz).
  change (String c s +:+ String newline rest) with (String c (s +:+ String newline rest)).
  cbn [read_line]. rewrite Hb, Hn, Hz, (IH Hs). reflexivity.
Qed.

Lemma read_line_plain_end s :
  plain s = true ->
  read_line s = (List.map unquoted (list_ascii_of_string s), "").
Proof.
  unfold plain. induction s as [|c s IH]; [reflexivity|].
  cbn [all_chars]. intros [Hc Hs]%andb_prop.
  destruct (plain_char_tests c Hc) as (Hb & Hn & Hz).
  cbn [read_line]. rewrite Hb, Hn, Hz, (IH Hs). reflexivity.
Qed.

Lemma before_nul_plain l :
  Forall (fun c => plain_char c = true) l ->
  before_nul (List.map unquoted l) = List.map unquoted l.
Proof.
  induction 1 as [|c l Hc _ IH]; [reflexivity|].
  destruct (plain_char_tests c Hc) as (_ & _ & Hz).
  cbn [List.map before_nul unquoted fst]. by rewrite Hz, IH.
Qed.

Lemma strip_left_blanks lead l :
  Forall (fun c => blank c = true) lead ->
  strip_left (List.map unquoted (lead ++ l)) = strip_left (List.map unquoted l).
Proof.
  induction 1 as [|c lead Hc _ IH]; [reflexivity|].
  cbn [app List.map strip_left]. unfold is_ifs_space, unquoted at 1 2 3 4.
  cbn [fst snd negb andb].
  unfold blank in Hc. apply orb_prop in Hc as [->| ->]; cbn [orb]; [exact IH|].
  rewrite orb_true_r. exact IH.
Qed.

Lemma strip_left_clean l :
  Forall (fun c => plain_char c = true) l ->
  starts_blank l = false ->
  strip_left (List.map unquoted l) = List.map unquoted l.
Proof.
  destruct 1 as [|c l Hc _]; [reflexivity|]. cbn [starts_blank]. intros Hb.
  destruct (plain_char_tests c Hc) as (_ & Hn & _).
  cbn [List.map strip_left]. unfold is_ifs_space, unquoted at 1 2 3 4.
  cbn [fst snd negb andb]. unfold blank in Hb. apply orb_false_elim in Hb as [-> ->].
  by rewrite Hn.
Qed.

(** The value [read] assigns, from the characters of the line. *)
Lemma read_value lead line trail :
  Forall (fun c => blank c = true) lead ->
  Forall (fun c => blank c = true) trail ->
  Forall (fun c => plain_char c = true) line ->
  starts_blank line = false ->
  starts_blank (rev line) = false ->
  List.map fst
    (rev (strip_left (rev (strip_left
       (before_nul (List.map unquoted (lead ++ line ++ trail)))))))
  = line.
Proof.
  intros Hlead Htrail Hline Hs He.
  assert (Forall (fun c => plain_char c = true) trail) as Htrail'
    by (eapply Forall_impl; [exact Htrail | apply blank_plain]).
  assert (Forall (fun c => plain_char c = true) lead) as Hlead'
    by (eapply Forall_impl; [exact Hlead | apply blank_plain]).
  rewrite before_nul_plain by (rewrite !Forall_app; auto).
  rewrite strip_left_blanks by done.
  destruct line as [|c line].
  - cbn [app]. rewrite <- (app_nil_r trail), strip_left_blanks by done. reflexivity.
  - rewrite strip_left_clean by (rewrite ?Forall_app; auto).
    rewrite <- List.map_rev, rev_app_distr.
    rewrite strip_left_blanks by (by apply Forall_rev).
    rewrite strip_left_clean by (auto using Forall_rev).
    rewrite <- List.map_rev, rev_involutive, List.map_map. apply List.map_id.
Qed.

Lemma plain_around lead line trail :
  blanks lead = true -> blanks trail = true -> plain line = true ->
  plain (lead +:+ line +:+ trail) = true.
Proof.
  unfold blanks, plain. intros Hlead Htrail Hline.
  rewrite !all_chars_app, Hline.
  rewrite (all_chars_impl blank plain_char lead blank_plain Hlead).
  by rewrite (all_chars_impl blank plain_char trail blank_plain Htrail).
Qed.

(** [read] on a line with an answer between blanks. *)
Lemma read_answer_line lead line trail rest :
  blanks lead = true -> blanks trail = true ->
  plain line = true -> tidy line = true ->
  read (lead +:+ line +:+ trail +:+ String newline rest) = (line, rest).
Proof.
  intros Hlead Htrail Hline Htidy.
  pose proof (plain_around lead line trail Hlead Htrail Hline) as Hall.
  unfold blanks, plain, tidy in *. apply andb_prop in Htidy as [Hs He].
  apply negb_true_iff in Hs, He.
  apply all_chars_Forall in Hlead, Htrail, Hline.
  unfold read.
  assert (lead +:+ line +:+ trail +:+ String newline rest
          = (lead +:+ line +:+ trail) +:+ String newline rest) as ->
    by (by rewrite !append_assoc).
  rewrite read_line_plain by exact Hall.
  rewrite !list_of_append, read_value by done.
  by rewrite string_of_list_ascii_of_string.
Qed.

(** X12: [read] on a line of plain characters: blanks before and after the
    text are dropped, the text between them is the value, and the input
    after the newline is left unread.  The same holds for a last line that
    has no newline. *)
Theorem read_trims (lead line trail rest : string) :
  blanks lead = true -> blanks trail = true ->
  plain line = true -> tidy line = true ->
  read (lead +:+ line +:+ trail +:+ String newline rest) = (line, rest) /\
  read (lead +:+ line +:+ trail) = (line, "").
Proof.
  intros Hlead Htrail Hline Htidy.
  split; [by apply read_answer_line|].
  pose proof (plain_around lead line trail Hlead Htrail Hline) as Hall.
  unfold blanks, plain, tidy in *. apply andb_prop in Htidy as [Hs He].
  apply negb_true_iff in Hs, He.
  apply all_chars_Forall in Hlead, Htrail, Hline.
  unfold read. rewrite read_line_plain_end by exact Hall.
  rewrite !list_of_append, read_value by done.
  by rewrite string_of_list_ascii_of_string.
Qed.

Lemma read_trims_witness :
  read ("  " +:+ "my wallet" +:+ " " +:+ String newline "next") = ("my wallet", "next") /\
  read ("  " +:+ "my wallet" +:+ " ") = ("my wallet", "").
Proof.
  apply (read_trims "  " "my wallet" " " "next"); reflexivity.
Defined.

(** *** Command substitution *)

Lemma ends_with_newline_cons c s :
  ends_with_newline (String c s)
  = if nonempty s then ends_with_newline s else Ascii.eqb c newline.
Proof.
  unfold ends_with_newline. cbn [list_ascii_of_string rev].
  destruct s as [|d s]; [reflexivity|]. cbn [nonempty list_ascii_of_string rev].
  destruct (rev (list_ascii_of_string s)) as [|e l]; reflexivity.
Qed.

Lemma command_substitution_fixed s :
  ends_with_newline s = false -> command_substitution s = s.
Proof.
  induction s as [|c s IH]; [reflexivity|].
  rewrite ends_with_newline_cons. cbn [command_substitution].
  destruct s as [|d s].
  - cbn [nonempty command_substitution]. by intros ->.
  - cbn [nonempty]. intros H. rewrite (IH H). cbn [nonempty negb].
    by rewrite andb_false_r.
Qed.

Lemma command_substitution_newline s :
  command_substitution (s +:+ String newline "") = command_substitution s.
Proof.
  induction s as [|c s IH]; [reflexivity|].
  change (String c s +:+ String newline "") with (String c (s +:+ String newline "")).
  cbn [command_substitution]. by rewrite IH.
Qed.

Lemma command_substitution_no_newline_at_end s :
  ends_with_newline (command_substitution s) = false.
Proof.
  induction s as [|c s IH]; [reflexivity|]. cbn [command_substitution].
  revert IH. generalize (command_substitution s). intros t IH.
  destruct (Ascii.eqb c newline) eqn:Hc, t as [|d t]; cbn [nonempty negb andb];
    rewrite ?ends_with_newline_cons in *; cbn [nonempty]; auto.
Qed.

(** X13: what [$(...)] yields never ends in a newline, and substituting it
    again changes nothing. *)
Theorem command_substitution_idempotent (out : string) :
  ends_with_newline (command_substitution out) = false /\
  command_substitution (command_substitution out) = command_substitution out.
Proof.
  split; [apply command_substitution_no_newline_at_end|].
  apply command_substitution_fixed, command_substitution_no_newline_at_end.
Qed.

(** X14: a word that is not an option and does not end in a newline comes
    back unchanged from [$(echo "$word")]. *)
Theorem echo_round_trip (word : string) :
  is_echo_option word = false ->
  ends_with_newline word = false ->
  command_substitution (echo false word) = word.
Proof.
  intros Hopt Hend. unfold echo. rewrite Hopt.
  by rewrite command_substitution_newline, command_substitution_fixed.
Qed.

Lemma echo_round_trip_witness :
  command_substitution (echo false "cuda:0") = "cuda:0".
Proof. apply (echo_round_trip "cuda:0"); reflexivity. Defined.

(** A word [echo] takes for an option is lost on the way. *)
Example echo_loses_option : command_substitution (echo false "-ne") = "".
Proof. reflexivity. Qed.

Lemma ends_with_newline_app s a :
  nonempty a = true -> ends_with_newline (s +:+ a) = ends_with_newline a.
Proof.
  intros Ha. induction s as [|c s IH]; [reflexivity|].
  change (String c s +:+ a) with (String c (s +:+ a)).
  rewrite ends_with_newline_cons, IH.
  destruct s as [|d s]; [|reflexivity]. change ("" +:+ a) with a. by rewrite Ha.
Qed.

Lemma plain_no_newline_at_end a : plain a = true -> ends_with_newline a = false.
Proof.
  unfold plain. induction a as [|c a IH]; [reflexivity|]. cbn [all_chars].
  intros [Hc Ha]%andb_prop. rewrite ends_with_newline_cons.
  destruct (plain_char_tests c Hc) as (_ & Hn & _).
  destruct (nonempty a); auto.
Qed.

(** *** The prompt functions on plain answers *)

Lemma echo_prompt prompt : echo true (prompt +:+ ": ") = prompt +:+ ": ".
Proof.
  unfold echo.
  assert (prompt +:+ ": " = (prompt +:+ ":") +:+ String space "") as ->
    by (by rewrite append_assoc).
  rewrite is_echo_option_space. apply append_nil_r.
Qed.

(** X15: [prompt_with_default] reads one line.  It writes the prompt text
    and then the answer, blanks around it dropped, or the default when the
    line holds no answer; so an answer arrives in the variable behind the
    prompt text. *)
Theorem prompt_with_default_answer (prompt default lead answer trail rest : string) :
  blanks lead = true -> blanks trail = true ->
  plain answer = true -> tidy answer = true ->
  is_echo_option answer = false ->
  let shown := prompt +:+ " [" +:+ default +:+ "]: " in
  prompt_with_default prompt default
    (lead +:+ answer +:+ trail +:+ String newline rest)
  = (shown +:+ (if nonempty answer then answer +:+ String newline ""
                else echo false default),
     rest) /\
  (nonempty answer = true ->
   command_substitution
     (fst (prompt_with_default prompt default
             (lead +:+ answer +:+ trail +:+ String newline rest)))
   = shown +:+ answer).
Proof.
  intros Hlead Htrail Hplain Htidy Hopt. cbv zeta.
  pose proof (read_answer_line lead answer trail rest Hlead Htrail Hplain Htidy) as Hread.
  assert (prompt_with_default prompt default
            (lead +:+ answer +:+ trail +:+ String newline rest)
          = ((prompt +:+ " [" +:+ default +:+ "]: ")
             +:+ (if nonempty answer then answer +:+ String newline ""
                  else echo false default), rest)) as Heq.
  { unfold prompt_with_default. rewrite echo_prompt_default, Hread.
    destruct (nonempty answer); [|reflexivity]. unfold echo. by rewrite Hopt. }
  split; [exact Heq|].
  intros Hne. rewrite Heq, Hne. cbn [fst]. rewrite <- append_assoc.
  rewrite command_substitution_newline. apply command_substitution_fixed.
  rewrite ends_with_newline_app by done. by apply plain_no_newline_at_end.
Qed.

Lemma prompt_with_default_answer_witness :
  let shown := "Enter network" +:+ " [" +:+ "test" +:+ "]: " in
  prompt_with_default "Enter network" "test"
    (" " +:+ "finney" +:+ "  " +:+ String newline "cuda:1")
  = (shown +:+ (if nonempty "finney" then "finney" +:+ String newline ""
                else echo false "test"),
     "cuda:1") /\
  (nonempty "finney" = true ->
   command_substitution
     (fst (prompt_with_default "Enter network" "test"
             (" " +:+ "finney" +:+ "  " +:+ String newline "cuda:1")))
   = shown +:+ "finney").
Proof.
  apply (prompt_with_default_answer "Enter network" "test" " " "finney" "  " "cuda:1");
    reflexivity.
Defined.

Lemma typed_cons_app b bl tail :
  typed (b :: bl) +:+ tail = b +:+ String newline (typed bl +:+ tail).
Proof. cbn [typed foldr]. fold (typed bl). by rewrite append_assoc. Qed.

Lemma read_blank_line b rest :
  blanks b = true -> read (b +:+ String newline rest) = ("", rest).
Proof.
  intros Hb. exact (read_answer_line b "" "" rest Hb eq_refl eq_refl eq_refl).
Qed.

Lemma append_newline_nonempty b rest : b +:+ String newline rest <> "".
Proof. by destruct b. Qed.

(** X16: [prompt_required] on some lines of blanks followed by a line with
    an answer: it asks once per line, complains once per blank line, accepts
    the answer, and leaves the rest of the input unread. *)
Theorem prompt_required_blank_lines (prompt : string) (blank_lines : list string)
    (lead answer trail rest : string) :
  Forall (fun b => blanks b = true) blank_lines ->
  blanks lead = true -> blanks trail = true ->
  plain_answer answer = true ->
  prompt_required prompt
    (typed blank_lines +:+ lead +:+ answer +:+ trail +:+ String newline rest)
  = Done (typed (replicate (length blank_lines)
                   (prompt +:+ ": This field is required"))
          +:+ prompt +:+ ": " +:+ answer +:+ String newline "",
          rest).
Proof.
  unfold plain_answer. intros Hbl Hlead Htrail Hans.
  apply andb_prop in Hans as [Hans Hopt]. apply andb_prop in Hans as [Hans Htidy].
  apply andb_prop in Hans as [Hne Hplain]. apply negb_true_iff in Hopt.
  pose proof (read_answer_line lead answer trail rest Hlead Htrail Hplain Htidy) as Hread.
  induction Hbl as [|b bl Hb _ IH].
  - change (typed [] +:+ ?x) with x. cbn [length replicate].
    change (typed [] +:+ ?x) with x.
    rewrite prompt_required_unfold, Hread, Hne, echo_prompt.
    unfold echo. rewrite Hopt. by rewrite append_assoc.
  - rewrite typed_cons_app, prompt_required_unfold, read_blank_line by done.
    cbn [nonempty]. rewrite decide_False by apply append_newline_nonempty.
    rewrite IH, echo_prompt. cbn [length replicate]. rewrite typed_cons_app.
    f_equal. f_equal.
    change (echo false "This field is required")
      with ("This field is required" +:+ String newline "").
    rewrite !append_assoc. reflexivity.
Qed.

Lemma prompt_required_blank_lines_witness :
  prompt_required "Enter wallet name"
    (typed [""; "   "] +:+ " " +:+ "alice" +:+ "" +:+ String newline "next")
  = Done (typed (replicate (length [""; "   "])
                   ("Enter wallet name" +:+ ": This field is required"))
          +:+ "Enter wallet name" +:+ ": " +:+ "alice" +:+ String newline "",
          "next").
Proof.
  apply (prompt_required_blank_lines "Enter wallet name" [""; "   "] " " "alice" "" "next");
    [repeat constructor | reflexivity..].
Defined.

Lemma prompt_required_hangs_on_blanks prompt blank_lines :
  Forall (fun b => blanks b = true) blank_lines ->
  prompt_required prompt (typed blank_lines) = Hangs.
Proof.
  induction 1 as [|b bl Hb _ IH]; [reflexivity|].
  cbn [typed foldr]. fold (typed bl).
  rewrite prompt_required_unfold, read_blank_line by done.
  cbn [nonempty]. rewrite decide_False by apply append_newline_nonempty.
  by rewrite IH.
Qed.

Lemma read_plain_rest first rest :
  plain first = true -> snd (read (first +:+ String newline rest)) = rest.
Proof. intros H. unfold read. by rewrite read_line_plain. Qed.



Example script_stuck_on_empty_input : script (fun _ => 0) ∅ "" = Stuck banner.
Proof. reflexivity. Qed.

(** *** The script as a whole *)

Lemma prompt_required_output prompt stdin out rest :
  prompt_required prompt stdin = Done (out, rest) ->
  exists tail, out = (prompt +:+ ": ") +:+ tail.
Proof.
  rewrite prompt_required_unfold. destruct (read stdin) as [response stdin'].
  rewrite echo_prompt. destruct (nonempty response).
  - intros [= <- _]. eauto.
  - case_decide; [discriminate|].
    destruct (prompt_required prompt stdin') as [[out' r]|]; [|discriminate].
    intros [= <- _]. eauto.
Qed.

(** The variables at the end of a run that gets to the compose command. *)
Lemma run_values ambient input sh inv :
  run ambient input = Done (sh, inv) ->
  exists a1 a2 a3 a4 a5 a6 a7,
    let node_type :=
      command_substitution ("Enter node type (miner/validator) [miner]: " +:+ a1) in
    vars sh
    = <["COMPOSE_FILE" := "docker/compose." +:+ node_type +:+ ".yml"]>
        (<["DEBUG" := command_substitution
                        ("Enable debug mode? (true/false) [false]: " +:+ a7)]>
           (<["CUDA_DEVICE" := command_substitution ("Enter CUDA device [cuda:0]: " +:+ a6)]>
              (<["NETWORK" := command_substitution ("Enter network [test]: " +:+ a5)]>
                 (<["WANDB_API_KEY" := command_substitution
                                         ("Enter Weights & Biases API key: " +:+ a4)]>
                    (<["WALLET_HOTKEY" := command_substitution
                                            ("Enter wallet hotkey: " +:+ a3)]>
                       (<["WALLET_NAME" := command_substitution
                                             ("Enter wallet name: " +:+ a2)]>
                          (<["NODE_TYPE" := node_type]> ambient))))))) /\
    argv inv = ["docker"; "compose"; "-f";
                "docker/compose." +:+ node_type +:+ ".yml"; "up"; "-d"].
Proof.
  unfold run, docker_run, start, assign_prompt_with_default, assign_prompt_required.
  cbn [obind stdin vars exported].
  destruct (prompt_with_default_output "Enter node type (miner/validator)" "miner" input)
    as [a1 H1].
  destruct (prompt_with_default _ _ input) as [o1 r1]. cbn [fst] in H1. subst o1.
  cbn [obind stdin vars exported].
  destruct (prompt_required _ r1) as [[o2 r2]|] eqn:E2; [|discriminate].
  apply prompt_required_output in E2 as [a2 ->]. cbn [obind stdin vars exported].
  destruct (prompt_required _ r2) as [[o3 r3]|] eqn:E3; [|discriminate].
  apply prompt_required_output in E3 as [a3 ->]. cbn [obind stdin vars exported].
  destruct (prompt_required _ r3) as [[o4 r4]|] eqn:E4; [|discriminate].
  apply prompt_required_output in E4 as [a4 ->]. cbn [obind stdin vars exported].
  destruct (prompt_with_default_output "Enter network" "test" r4) as [a5 H5].
  destruct (prompt_with_default _ _ r4) as [o5 r5]. cbn [fst] in H5. subst o5.
  cbn [obind stdin vars exported].
  destruct (prompt_with_default_output "Enter CUDA device" "cuda:0" r5) as [a6 H6].
  destruct (prompt_with_default _ _ r5) as [o6 r6]. cbn [fst] in H6. subst o6.
  cbn [obind stdin vars exported].
  destruct (prompt_with_default_output "Enable debug mode? (true/false)" "false" r6)
    as [a7 H7].
  destruct (prompt_with_default _ _ r6) as [o7 r7]. cbn [fst] in H7. subst o7.
  cbn [obind stdin vars exported].
  unfold export, assign, expand. cbn [stdin vars exported].
  rewrite lookup_insert_eq.
  do 6 (rewrite lookup_insert_ne by done). rewrite lookup_insert_eq.
  intros [= <- <-]. cbn [vars argv invoke].
  exists a1, a2, a3, a4, a5, a6, a7. split; reflexivity.
Qed.





(** The last line of a successful run. *)
Lemma follow_logs_line (n : string) :
  echo false ("docker compose -f "
              +:+ ("docker/compose."
                   +:+ ("Enter node type (miner/validator) [miner]: " +:+ n) +:+ ".yml")
              +:+ " logs -f")
  = "docker compose -f docker/compose.Enter node type (miner/validator) [miner]: "
    +:+ (((n +:+ ".yml") +:+ " logs -f") +:+ String newline "").
Proof.
  unfold echo.
  match goal with
  | |- context [is_echo_option ?t] =>
      assert (is_echo_option t = false) as ->
        by exact (is_echo_option_space "docker"
                    ("compose -f docker/compose.Enter node type (miner/validator) [miner]: "
                     +:+ ((n +:+ ".yml") +:+ " logs -f")))
  end.
  exact (append_assoc
           "docker compose -f docker/compose.Enter node type (miner/validator) [miner]: "
           ((n +:+ ".yml") +:+ " logs -f") (String newline "")).
Qed.



(** What the operator sees when the compose command succeeds. *)
Example script_success_terminal :
  match script (fun _ => 0) ∅ validator_answers with
  | Exited terminal status _ _ => Some (status, terminal)
  | Stuck _ => None
  end
  = Some (0, typed ["🤖 Templar Mining Docker Configuration";
                    "-------------------------------------";
                    ""; "📦 Starting containers...";
                    ""; "✅ Containers started successfully!";
                    "📝 Logs are available in the ./logs directory";
                    ""; "To follow logs, run:";
                    "docker compose -f docker/compose.Enter node type (miner/validator) [miner]: validator.yml logs -f"]).
Proof. vm_compute. reflexivity. Qed.

Lemma read_nonempty_consumes stdin response rest :
  read stdin = (response, rest) -> nonempty response = true ->
  String.length rest < String.length stdin.
Proof.
  intros Hread Hne. apply (read_consumes _ _ _ Hread).
  intros ->. rewrite read_eof in Hread. injection Hread as <- _. discriminate.
Qed.

Lemma prompt_required_loop_consumes fuel : forall prompt stdin out rest,
  prompt_required_loop fuel prompt stdin = Done (out, rest) ->
  String.length rest < String.length stdin.
Proof.
  induction fuel as [|fuel IH]; intros prompt stdin out rest; [discriminate|].
  cbn [prompt_required_loop].
  destruct (read stdin) as [response stdin'] eqn:Hread.
  destruct (nonempty response) eqn:Hne.
  - intros [= _ <-]. by eapply read_nonempty_consumes.
  - destruct (prompt_required_loop fuel prompt stdin') as [[out' rest']|] eqn:Hrec;
      [|discriminate].
    intros [= _ <-]. apply IH in Hrec.
    destruct (read_consumes _ _ _ Hread) as [Hle _]. lia.
Qed.



End LauncherFacts.
